(** * pc_phone_agent: the agent loop, tool results and the schema generator

    A shallow embedding of
      - [app/agent/base.py]  ([BaseAgent]: [state_context], [update_memory],
        [run], [handle_stuck_state], [is_stuck]),
      - [app/tool/base.py]   ([ToolResult]: [__bool__], [__add__]),
      - [app/tool/create_chat_completion.py] ([CreateChatCompletion]:
        [_build_parameters], [_create_type_schema], [_get_type_info],
        [_create_union_schema], [execute]),
      - [app/tool/base.py] again ([ToolResult]: [__str__], [replace]),
      - [app/agent/manus.py] ([Manus]: [get_browser_state], [think]),
      - [od.py] ([is_valid_str], [longestPalinfrome]),
    followed by the properties of these functions.

    Python [int] is [Z], [str] is [string], [Optional[str]] is
    [option string], a value declared [Any] is an object of a type with
    Python's truth value and sum (class [Object]), a raised exception is
    the [Raise] outcome of a [result], and the mutable [self] of the agent
    is threaded explicitly. *)

From Stdlib Require Import ZArith Bool Ascii String List Lia DecimalString.
From stdpp Require Import gmap strings list fin_maps.
Import ListNotations.

Set Warnings "-register-all".
Local Open Scope string_scope.
Local Open Scope Z_scope.

(** ** [app/schema.py]: the state enumeration and the message log *)

Module Schema.

(** Modelled from the spec: [AgentState] of [app/schema.py], which is not
    among the sources; the enumerated variant IDLE | RUNNING | FINISHED |
    ERROR of the data model. *)
Inductive AgentState : Type := IDLE | RUNNING | FINISHED | ERROR.

Definition AgentState_eqb (a b : AgentState) : bool :=
  match a, b with
  | IDLE, IDLE | RUNNING, RUNNING | FINISHED, FINISHED | ERROR, ERROR => true
  | _, _ => false
  end.

(** Modelled from the spec: the fixed role set of [ROLE_TYPE]. *)
Inductive Role : Type := system | user | assistant | tool.

Definition Role_eqb (a b : Role) : bool :=
  match a, b with
  | system, system | user, user | assistant, assistant | tool, tool => true
  | _, _ => false
  end.

(** Modelled from the spec: [Message] of [app/schema.py]: a role, a text
    content, an optional image and an optional tool-call identifier.  A
    content of [None] would pass every test below as the empty text does. *)
Record Message : Type := mkMessage {
  role : Role;
  content : string;
  base64_image : option string;
  tool_call_id : option string
}.

(** Modelled from the spec: the role-specific constructors of [Message]. *)
Definition user_message (c : string) (img : option string) : Message :=
  mkMessage user c img None.
Definition system_message (c : string) (img : option string) : Message :=
  mkMessage system c img None.
Definition assistant_message (c : string) (img : option string) : Message :=
  mkMessage assistant c img None.
Definition tool_message (c : string) (id : string) (img : option string) : Message :=
  mkMessage tool c img (Some id).

(** Modelled from the spec: [Memory.add_message] appends to the ordered log. *)
Definition add_message (messages : list Message) (m : Message) : list Message :=
  messages ++ [m].

End Schema.
Export Schema.

(** ** Python values shared by the three files *)

Module Py.

(** Truthiness of a [str]: only the empty string is falsy. *)
Definition truthy (s : string) : bool := negb (String.eqb s "").

(** Truthiness of an [Optional[str]]: [None] and the empty string are falsy. *)
Definition truthy_opt (o : option string) : bool :=
  match o with
  | Some s => truthy s
  | None => false
  end.

(** [a or b] on [Optional[str]] operands. *)
Definition or_opt (a b : option string) : option string :=
  if truthy_opt a then a else b.

(** [str(n)] for an [int], as an f-string renders it. *)
Definition str_of_int (n : Z) : string := NilZero.string_of_int (Z.to_int n).

(** [f"{x}"] for an [Optional[str]]: [None] renders as the text None. *)
Definition format_opt (o : option string) : string :=
  match o with
  | Some s => s
  | None => "None"
  end.

(** [sep.join(l)]. *)
Definition join (sep : string) (l : list string) : string := String.concat sep l.

(** The exceptions the modelled code raises or lets through. *)
Inductive exn : Type :=
| RuntimeError_state (s : AgentState)
    (* RuntimeError(f"Cannot run agent from state: {self.state}") *)
| ValueError (msg : string)
| TypeError (msg : string)
| RecursionError
| Raised (name : string) (derives_Exception : bool).
    (* whatever else a step raises; the flag is isinstance(e, Exception) *)

Definition is_Exception (e : exn) : bool :=
  match e with
  | Raised _ b => b
  | _ => true
  end.

Inductive result (A : Type) : Type :=
| Ok (v : A)
| Raise (e : exn).
Arguments Ok {A} v.
Arguments Raise {A} e.

End Py.
Export Py.

(** ** [app/agent/base.py]: [BaseAgent] *)

Module BaseAgent.

(** The fields of [BaseAgent] that the loop reads or writes.  [name],
    [description], [system_prompt] and [llm] are never touched by the
    functions below and are left out. *)
Record Agent : Type := mkAgent {
  next_step_prompt : option string;
  memory : list Message;
  state : AgentState;
  max_steps : Z;
  current_step : Z;
  duplicate_threshold : Z
}.

(** Field assignments [self.f = v]. *)
Definition set_next_step_prompt (v : option string) (self : Agent) : Agent :=
  mkAgent v (memory self) (state self) (max_steps self) (current_step self)
    (duplicate_threshold self).
Definition set_memory (v : list Message) (self : Agent) : Agent :=
  mkAgent (next_step_prompt self) v (state self) (max_steps self)
    (current_step self) (duplicate_threshold self).
Definition set_state (v : AgentState) (self : Agent) : Agent :=
  mkAgent (next_step_prompt self) (memory self) v (max_steps self)
    (current_step self) (duplicate_threshold self).
Definition set_current_step (v : Z) (self : Agent) : Agent :=
  mkAgent (next_step_prompt self) (memory self) (state self) (max_steps self)
    v (duplicate_threshold self).

(** The outcome of a call on the agent: the agent as the call left it, and
    what the call returned or raised.  [None] is kept for a loop that was
    given too little fuel. *)
Definition outcome (A : Type) : Type := (Agent * result A)%type.

(** [state_context]: swap to [new_state], run the body, and on the way out
    run the [except Exception] clause (write ERROR, re-raise) and then the
    [finally] clause (write back [previous_state]).  The [isinstance] test
    on [new_state] cannot fail for a value of type [AgentState]. *)
Definition state_context {A : Type} (new_state : AgentState)
    (body : Agent -> option (outcome A)) (self : Agent) : option (outcome A) :=
  let previous_state := state self in
  let self := set_state new_state self in
  match body self with
  | None => None
  | Some (self, Ok v) =>
      Some (set_state previous_state self, Ok v)
  | Some (self, Raise e) =>
      let self := if is_Exception e then set_state ERROR self else self in
      Some (set_state previous_state self, Raise e)
  end.

(** [update_memory(role, content, base64_image, **kwargs)]; the only
    keyword the tool constructor needs is [tool_call_id]. *)
Definition update_memory (role : string) (content : string)
    (base64_image : option string) (tool_call_id : option string)
    (self : Agent) : outcome unit :=
  let add m := (set_memory (add_message (memory self) m) self, Ok tt) in
  if String.eqb role "user" then add (user_message content base64_image)
  else if String.eqb role "system" then add (system_message content base64_image)
  else if String.eqb role "assistant" then add (assistant_message content base64_image)
  else if String.eqb role "tool" then
    match tool_call_id with
    | Some id => add (tool_message content id base64_image)
    | None => (self, Raise (TypeError "tool_message() missing tool_call_id"))
    end
  else (self, Raise (ValueError ("Unsupported message role: " +:+ role))).

(** [stuck_prompt]: the literal continues after a backslash-newline, so it
    starts with the eight spaces of the next source line. *)
Definition stuck_prompt : string :=
  "        Observed duplicate responses. Consider new strategies and avoid repeating ineffective paths already attempted.".

Definition newline : string := String (ascii_of_nat 10) EmptyString.

Definition handle_stuck_state (self : Agent) : Agent :=
  set_next_step_prompt
    (Some (stuck_prompt +:+ newline +:+ format_opt (next_step_prompt self))) self.

(** [is_stuck]: the two early returns, then the generator sum over
    [reversed(messages[:-1])]. *)
Definition is_stuck (self : Agent) : bool :=
  if (length (memory self) <? 2)%nat then false
  else
    match last (memory self) with
    | None => false
    | Some last_message =>
        if negb (truthy (content last_message)) then false
        else
          let duplicate_count :=
            fold_left Z.add
              (map (fun _ => 1)
                 (List.filter
                    (fun msg => Role_eqb (role msg) assistant
                                && String.eqb (content msg) (content last_message))
                    (rev (removelast (memory self)))))
              0 in
          duplicate_threshold self <=? duplicate_count
    end.

Definition step_record (n : Z) (step_result : string) : string :=
  "Step " +:+ str_of_int n +:+ ": " +:+ step_result.

Definition terminated_record (n : Z) : string :=
  "Terminated: Reached max steps (" +:+ str_of_int n +:+ ")".

Section Run.

(** The abstract [step]: it may change any field of the agent, and it
    returns its summary or raises. *)
Variable step : Agent -> outcome string.

(** The [while] loop of [run]; [results] is the local list. *)
Fixpoint run_loop (fuel : nat) (self : Agent) (results : list string)
    : option (outcome (list string)) :=
  if (current_step self <? max_steps self)
     && negb (AgentState_eqb (state self) FINISHED)
  then
    match fuel with
    | O => None
    | S fuel' =>
        let self := set_current_step (current_step self + 1) self in
        match step self with
        | (self, Raise e) => Some (self, Raise e)
        | (self, Ok step_result) =>
            let self := if is_stuck self then handle_stuck_state self else self in
            run_loop fuel' self
              (results ++ [step_record (current_step self) step_result])%list
        end
    end
  else Some (self, Ok results).

(** The body of [async with self.state_context(AgentState.RUNNING)]. *)
Definition run_body (fuel : nat) (self : Agent) : option (outcome (list string)) :=
  match run_loop fuel self [] with
  | None => None
  | Some (self, Raise e) => Some (self, Raise e)
  | Some (self, Ok results) =>
      if current_step self >=? max_steps self then
        let n := max_steps self in
        Some (set_state IDLE (set_current_step 0 self),
              Ok (results ++ [terminated_record n])%list)
      else Some (self, Ok results)
  end.

Definition run (fuel : nat) (self : Agent) (request : option string)
    : option (outcome string) :=
  if negb (AgentState_eqb (state self) IDLE) then
    Some (self, Raise (RuntimeError_state (state self)))
  else
    let after_request :=
      match request with
      | Some r =>
          if truthy r then update_memory "user" r None None self
          else (self, Ok tt)
      | None => (self, Ok tt)
      end in
    match after_request with
    | (self, Raise e) => Some (self, Raise e)
    | (self, Ok _) =>
        match state_context RUNNING (run_body fuel) self with
        | None => None
        | Some (self, Raise e) => Some (self, Raise e)
        | Some (self, Ok results) =>
            Some (self,
                  Ok (match results with
                      | [] => "No steps executed"
                      | _ => join newline results
                      end))
        end
    end.

End Run.

End BaseAgent.
Export BaseAgent.

(** ** Python objects behind [Any] *)

Module PyObject.

(** What the code asks of an object it holds in a field declared [Any]:
    its truth value [bool(x)] and the sum [x + y], either of which may
    raise; whether it is a [str], for [str()]; and what the validation of
    an [Optional[str]] field makes of it, [None] standing for a rejected
    value.  [None] and the texts are objects, and Python fixes how these
    behave; numbers, containers and the rest are left to the instance.
    The objects are plain data, which [dict()] hands over as they are. *)
Class Object (value : Type) : Type := {
  none : value;
  of_str : string -> value;
  is_none : value -> bool;
  truth : value -> result bool;
  plus : value -> value -> result value;
  as_str : value -> option string;
  as_text : value -> option (option string);
  is_none_none : is_none none = true;
  is_none_str : forall s, is_none (of_str s) = false;
  truth_none : truth none = Ok false;
  truth_str : forall s, truth (of_str s) = Ok (truthy s);
  plus_str : forall a b, plus (of_str a) (of_str b) = Ok (of_str (a +:+ b));
  as_str_none : as_str none = None;
  as_str_str : forall s, as_str (of_str s) = Some s;
  as_text_none : as_text none = Some None;
  as_text_str : forall s, as_text (of_str s) = Some (Some s)
}.

(** A text field, [Optional[str]], as the object it holds. *)
Definition embed {value : Type} `{Object value} (o : option string) : value :=
  match o with
  | Some s => of_str s
  | None => none
  end.

(** Some of the objects: [None], booleans, integers, texts, lists and
    dictionaries. *)
Inductive pyobj : Type :=
| PNone
| PBool (b : bool)
| PInt (n : Z)
| PStr (s : string)
| PList (items : list pyobj)
| PDict (items : list (pyobj * pyobj)).

(** [bool(x)]. *)
Definition pyobj_truth (x : pyobj) : result bool :=
  Ok match x with
     | PNone => false
     | PBool b => b
     | PInt n => negb (n =? 0)
     | PStr s => truthy s
     | PList items => match items with [] => false | _ => true end
     | PDict items => match items with [] => false | _ => true end
     end.

(** The integer a number stands for in a sum; [bool] is a kind of [int]. *)
Definition pyobj_int (x : pyobj) : option Z :=
  match x with
  | PBool b => Some (if b then 1 else 0)
  | PInt n => Some n
  | _ => None
  end.

(** [x + y]: numbers add, texts and lists concatenate, anything else is a
    TypeError. *)
Definition pyobj_plus (x y : pyobj) : result pyobj :=
  match x, y with
  | PStr a, PStr b => Ok (PStr (a +:+ b))
  | PList a, PList b => Ok (PList (a ++ b))
  | _, _ =>
      match pyobj_int x, pyobj_int y with
      | Some a, Some b => Ok (PInt (a + b))
      | _, _ => Raise (TypeError "unsupported operand type(s) for +")
      end
  end.

#[export] Instance pyobj_Object : Object pyobj := {|
  none := PNone;
  of_str := PStr;
  is_none := fun x => match x with PNone => true | _ => false end;
  truth := pyobj_truth;
  plus := pyobj_plus;
  as_str := fun x => match x with PStr s => Some s | _ => None end;
  as_text := fun x =>
    match x with
    | PNone => Some None
    | PStr s => Some (Some s)
    | _ => None
    end;
  is_none_none := eq_refl;
  is_none_str := fun _ => eq_refl;
  truth_none := eq_refl;
  truth_str := fun _ => eq_refl;
  plus_str := fun _ _ => eq_refl;
  as_str_none := eq_refl;
  as_str_str := fun _ => eq_refl;
  as_text_none := eq_refl;
  as_text_str := fun _ => eq_refl
|}.

End PyObject.

(** ** [app/tool/base.py]: [ToolResult] *)

Module Tool.

Import PyObject.

(** [ToolResult]: [output] is declared [Any] and holds any object; the
    other three fields are [Optional[str]]. *)
Record ToolResult (value : Type) : Type := mkToolResult {
  output : value;
  error : option string;
  base64_image : option string;
  system : option string
}.
Arguments mkToolResult {value} output error base64_image system.
Arguments output {value} t.
Arguments error {value} t.
Arguments base64_image {value} t.
Arguments system {value} t.

(** The exception of a failed validation. *)
Definition ValidationError : exn := Raised "ValidationError" true.

Section WithObjects.

Context {value : Type} `{Object value}.

(** [ToolResult()]: every field at its default. *)
Definition empty : ToolResult value := mkToolResult none None None None.

(** The constructor called with one object per field: [output] is taken as
    it is, the three text fields are validated. *)
Definition construct (o e i s : value) : result (ToolResult value) :=
  match as_text e, as_text i, as_text s with
  | Some e', Some i', Some s' => Ok (mkToolResult o e' i' s')
  | _, _, _ => Raise ValidationError
  end.

(** [__fields__], in declaration order, read with [getattr]. *)
Definition fields (self : ToolResult value) : list value :=
  [output self; embed (error self); embed (base64_image self); embed (system self)].

(** [any(...)] over objects: the first truthy one ends the scan, and so
    does the first whose truth value raises. *)
Fixpoint any_ (objects : list value) : result bool :=
  match objects with
  | [] => Ok false
  | x :: rest =>
      match truth x with
      | Raise e => Raise e
      | Ok true => Ok true
      | Ok false => any_ rest
      end
  end.

(** [__bool__]: [any(getattr(self, field) for field in self.__fields__)]. *)
Definition __bool__ (self : ToolResult value) : result bool := any_ (fields self).

(** The inner [combine_fields] of [__add__], on any two objects. *)
Definition combine_fields (field other_field : value) (concatenate : bool)
    : result value :=
  match truth field with
  | Raise e => Raise e
  | Ok false => Ok other_field
  | Ok true =>
      match truth other_field with
      | Raise e => Raise e
      | Ok false => Ok field
      | Ok true =>
          if concatenate then plus field other_field
          else Raise (ValueError "Cannot combine tool results")
      end
  end.

(** [__add__]: the keyword arguments are evaluated in source order, the
    first one that raises ends the call, and the constructor gets the four
    results. *)
Definition __add__ (self other : ToolResult value) : result (ToolResult value) :=
  match combine_fields (output self) (output other) true with
  | Raise e => Raise e
  | Ok o =>
    match combine_fields (embed (error self)) (embed (error other)) true with
    | Raise e => Raise e
    | Ok er =>
      match combine_fields (embed (base64_image self)) (embed (base64_image other)) false with
      | Raise e => Raise e
      | Ok img =>
        match combine_fields (embed (system self)) (embed (system other)) true with
        | Raise e => Raise e
        | Ok sy => construct o er img sy
        end
      end
    end
  end.

End WithObjects.

End Tool.

(** ** [app/tool/create_chat_completion.py]: [CreateChatCompletion] *)

Module CreateChatCompletion.

(** JSON-shaped dictionaries, keys in insertion order. *)
Inductive json : Type :=
| JStr (s : string)
| JArr (items : list json)
| JObj (members : list (string * json)).

(** [d.get(key)] on a JSON object. *)
Fixpoint get (key : string) (members : list (string * json)) : option json :=
  match members with
  | [] => None
  | (k, v) :: rest => if String.eqb k key then Some v else get key rest
  end.

(** The classes that can stand where a type is expected. *)
Inductive pyclass : Type :=
| C_str | C_int | C_float | C_bool | C_dict | C_list
| C_other (name : string).

Inductive origin_kind : Type := O_list | O_dict | O_Union | O_other.

(** A type hint as [get_origin] and [get_args] see it: a plain class or
    [Any] (origin [None]), a [BaseModel] subclass with the value of its
    [model_json_schema()], or a parameterised alias with its origin, its
    arguments and its [__name__] when it has one. *)
Inductive type_hint : Type :=
| T_class (c : pyclass)
| T_Any
| T_model (name : string) (schema : list (string * json))
| T_alias (origin : origin_kind) (args : list type_hint) (name : option string).

(** [self.type_mapping.get(type_hint, "string")]. *)
Definition type_mapping_get (t : type_hint) : string :=
  match t with
  | T_class C_str => "string"
  | T_class C_int => "integer"
  | T_class C_float => "number"
  | T_class C_bool => "boolean"
  | T_class C_dict => "object"
  | T_class C_list => "array"
  | _ => "string"
  end.

(** [type_hint.__name__], when the attribute exists. *)
Definition dunder_name (t : type_hint) : option string :=
  match t with
  | T_class C_str => Some "str"
  | T_class C_int => Some "int"
  | T_class C_float => Some "float"
  | T_class C_bool => Some "bool"
  | T_class C_dict => Some "dict"
  | T_class C_list => Some "list"
  | T_class (C_other n) => Some n
  | T_Any => Some "Any"
  | T_model n _ => Some n
  | T_alias _ _ n => n
  end.

(** The two fields of the tool that the functions read. *)
Record Tool : Type := mkTool {
  response_type : option type_hint;
  required : list string
}.

Definition required_json (self : Tool) : json := JArr (map JStr (required self)).

(** [_get_type_info]. *)
Definition _get_type_info (self : Tool) (t : type_hint) : json :=
  match t with
  | T_model _ schema => JObj schema
  | _ =>
      JObj [("type", JStr (type_mapping_get t));
            ("description",
             JStr ("Value of type " +:+ default "any" (dunder_name t)))]
  end.

(** [_create_union_schema]. *)
Definition _create_union_schema (self : Tool) (types : list type_hint) : json :=
  JObj [("type", JStr "object");
        ("properties",
         JObj [("response", JObj [("anyOf", JArr (map (_get_type_info self) types))])]);
        ("required", required_json self)].

(** [_create_type_schema].  Its last line calls back into
    [_build_parameters]; [build] is the result of that call. *)
Definition _create_type_schema (build : result json) (self : Tool)
    (t : option type_hint) : result json :=
  match t with
  | None => Raise (Raised "AttributeError" true)
  | Some (T_alias O_list args _) =>
      let item_type := hd T_Any args in
      Ok (JObj [("type", JStr "object");
                ("properties",
                 JObj [("response",
                        JObj [("type", JStr "array");
                              ("items", _get_type_info self item_type)])]);
                ("required", required_json self)])
  | Some (T_alias O_dict args _) =>
      let value_type := nth 1 args T_Any in
      Ok (JObj [("type", JStr "object");
                ("properties",
                 JObj [("response",
                        JObj [("type", JStr "object");
                              ("additionalProperties",
                               _get_type_info self value_type)])]);
                ("required", required_json self)])
  | Some (T_alias O_Union args _) => Ok (_create_union_schema self args)
  | Some (T_alias O_other _ _) => build
  | Some t =>
      match dunder_name t with
      | None => Raise (Raised "AttributeError" true)
      | Some n =>
          Ok (JObj [("type", JStr "object");
                    ("properties",
                     JObj [("response",
                            JObj [("type", JStr (type_mapping_get t));
                                  ("description", JStr ("Response of type " +:+ n))])]);
                    ("required", required_json self)])
      end
  end.

(** [_build_parameters].  It and [_create_type_schema] call each other;
    [depth] is the interpreter's recursion limit. *)
Fixpoint _build_parameters (depth : nat) (self : Tool) : result json :=
  match depth with
  | O => Raise RecursionError
  | S depth' =>
      match response_type self with
      | Some (T_class C_str) =>
          Ok (JObj [("type", JStr "object");
                    ("properties",
                     JObj [("response",
                            JObj [("type", JStr "string");
                                  ("description",
                                   JStr "The response text that should be delivered to the user.")])]);
                    ("required", required_json self)])
      | Some (T_model _ schema) =>
          match get "properties" schema with
          | None => Raise (Raised "KeyError" true)
          | Some props =>
              Ok (JObj [("type", JStr "object");
                        ("properties", props);
                        ("required", default (required_json self) (get "required" schema))])
          end
      | t => _create_type_schema (_build_parameters depth' self) self t
      end
  end.

(** The recursion limit a fresh interpreter starts with. *)
Definition recursion_limit : nat := 1000.

(** [CreateChatCompletion(response_type)]: [required] takes its default
    and [parameters] is built at once. *)
Definition default_required : list string := ["response"].

Definition __init__ (rt : option type_hint) : result (Tool * json) :=
  let self := mkTool rt default_required in
  match _build_parameters recursion_limit self with
  | Ok parameters => Ok (self, parameters)
  | Raise e => Raise e
  end.

Section Execute.

(** The raw values of the keyword arguments ([Any]), with text among
    them, and the two constructors [execute] calls: the response type
    applied to one value, and a [BaseModel] subclass applied to the
    keyword arguments. *)
Variable value : Type.
Variable text : string -> value.
Variable construct : type_hint -> value -> result value.
Variable construct_model : type_hint -> gmap string value -> result value.

(** What [execute] returns: one value, or a dictionary it built. *)
Inductive returned : Type :=
| R_value (v : value)
| R_dict (d : gmap string value).

(** [kwargs.get(field, "")]. *)
Definition kwargs_get (kwargs : gmap string value) (field : string) : value :=
  default (text "") (kwargs !! field).

(** [{field: kwargs.get(field, "") for field in required}]. *)
Definition fields_dict (kwargs : gmap string value) (required : list string)
    : gmap string value :=
  fold_left (fun d field => <[field := kwargs_get kwargs field]> d) required ∅.

(** The type conversion at the end of [execute]. *)
Definition convert (self : Tool) (kwargs : gmap string value) (result_ : value)
    : result returned :=
  match response_type self with
  | Some (T_class C_str) => Ok (R_value result_)
  | Some (T_model n s) =>
      match construct_model (T_model n s) kwargs with
      | Ok v => Ok (R_value v)
      | Raise e => Raise e
      end
  | Some (T_alias O_list _ _) | Some (T_alias O_dict _ _) => Ok (R_value result_)
  | None => Ok (R_value result_)   (* None(result) raises TypeError, absorbed *)
  | Some t =>
      match construct t result_ with
      | Ok v => Ok (R_value v)
      | Raise (ValueError _) | Raise (TypeError _) => Ok (R_value result_)
      | Raise e => Raise e
      end
  end.

(** [execute(required, **kwargs)]. *)
Definition execute (self : Tool) (required_arg : option (list string))
    (kwargs : gmap string value) : result returned :=
  let required :=
    match required_arg with
    | Some (f :: fs) => f :: fs
    | _ => required self
    end in
  match required with
  | [] => convert self kwargs (kwargs_get kwargs "response")
  | [required_field] => convert self kwargs (kwargs_get kwargs required_field)
  | _ => Ok (R_dict (fields_dict kwargs required))
  end.

End Execute.

End CreateChatCompletion.

(** ** Sample agents and steps *)

Module Samples.

(** A fresh agent: empty memory, IDLE, step counter 0, threshold 2. *)
Definition fresh (max_steps : Z) : Agent := mkAgent None [] IDLE max_steps 0 2.

(** An agent holding the given messages. *)
Definition holding (messages : list Message) (threshold : Z) : Agent :=
  mkAgent None messages IDLE 10 0 threshold.

(** A step that ends the run at once. *)
Definition finishing_step (self : Agent) : outcome string :=
  (set_state FINISHED self, Ok "done").

(** A stub step: a fixed summary, nothing else. *)
Definition stub_step (self : Agent) : outcome string := (self, Ok "ok").

(** A step that raises. *)
Definition boom : exn := Raised "ConnectionError" true.
Definition failing_step (self : Agent) : outcome string := (self, Raise boom).

(** A step that works twice and raises on its third call. *)
Definition third_fails (self : Agent) : outcome string :=
  if current_step self <? 3 then (self, Ok "ok") else (self, Raise boom).

Definition A_ : Message := assistant_message "A" None.
Definition blank : Message := assistant_message "" None.

End Samples.

(** ** Names for pieces of [run] *)

Module RunParts.

(** The agent after [if request: self.update_memory("user", request)]. *)
Definition with_request (request : option string) (self : Agent) : Agent :=
  match request with
  | Some r => if truthy r then set_memory (add_message (memory self) (user_message r None)) self
              else self
  | None => self
  end.

(** The agent after [if self.is_stuck(): self.handle_stuck_state()]. *)
Definition stuck_check (self : Agent) : Agent :=
  if is_stuck self then handle_stuck_state self else self.

(** The agent as an iteration of the loop hands it to [step]. *)
Definition entering_step (self : Agent) : Agent :=
  set_current_step (current_step self + 1) self.

(** The loop condition. *)
Definition loop_cond (self : Agent) : bool :=
  (current_step self <? max_steps self) && negb (AgentState_eqb (state self) FINISHED).

(** [summary.split("\n")]: the lines of a text. *)
Fixpoint split_lines (s : string) : list string :=
  match s with
  | EmptyString => [EmptyString]
  | String c rest =>
      if Ascii.eqb c (ascii_of_nat 10) then EmptyString :: split_lines rest
      else match split_lines rest with
           | [] => [String c EmptyString]
           | l :: ls => String c l :: ls
           end
  end.

(** [summary.split("\n")[-1]]: the last line of a text. *)
Definition last_line (s : string) : string := List.last (split_lines s) EmptyString.

Fixpoint has_newline (s : string) : bool :=
  match s with
  | EmptyString => false
  | String c rest => Ascii.eqb c (ascii_of_nat 10) || has_newline rest
  end.

(** Successful iterations of the loop: [iterates step a rs b rs'] when the
    loop, at its head with agent [a] and records [rs], comes back to its
    head with agent [b] and records [rs'] after some number of iterations
    in which [step] returned. *)
Inductive iterates (step : Agent -> outcome string)
    : Agent -> list string -> Agent -> list string -> Prop :=
| iterates_here a rs : iterates step a rs a rs
| iterates_next a rs a1 r b rs' :
    loop_cond a = true ->
    step (entering_step a) = (a1, Ok r) ->
    iterates step (stuck_check a1) (rs ++ [step_record (current_step a1) r])%list b rs' ->
    iterates step a rs b rs'.

(** The records a stub leaves when the loop runs [n] more times. *)
Fixpoint stub_records (s : string) (from : Z) (n : nat) : list string :=
  match n with
  | O => []
  | S n' => step_record (from + 1) s :: stub_records s (from + 1) n'
  end.

(** The content of the most recent message (empty when there is none). *)
Definition last_content (messages : list Message) : string :=
  match last messages with
  | Some m => content m
  | None => EmptyString
  end.

(** The test a message passes when it repeats the text [c] as assistant. *)
Definition repeats (c : string) (msg : Message) : bool :=
  Role_eqb (role msg) assistant && String.eqb (content msg) c.

(** The count the description of stuck detection speaks of: the messages
    before the last one that have role assistant and the last message's
    content. *)
Definition prior_duplicates (messages : list Message) : nat :=
  length (List.filter (repeats (last_content messages)) (removelast messages)).

End RunParts.
Export RunParts.

(** ** Names for pieces of the tool-result merge *)

Module ToolParts.

Import PyObject Tool.

(** A field is set when it holds anything but [None]. *)
Definition is_set {value : Type} `{Object value} (v : value) : bool := negb (is_none v).

(** What [+] leaves in a text field it concatenates, by presence of the
    two sides. *)
Definition merged (l r : option string) : option string :=
  match l, r with
  | Some a, Some b => Some (a +:+ b)
  | Some a, None => if truthy a then Some a else None
  | None, _ => r
  end.

Section WithObjects.

Context {value : Type} `{Object value}.

Definition with_output (v : value) : ToolResult value := mkToolResult v None None None.
Definition with_error (s : string) : ToolResult value :=
  mkToolResult none (Some s) None None.
Definition with_image (s : string) : ToolResult value :=
  mkToolResult none None (Some s) None.

End WithObjects.

End ToolParts.

(** ** [app/tool/base.py]: rendering and copying a [ToolResult] *)

Module ToolMore.

Import PyObject Tool.

Section WithObjects.

Context {value : Type} `{Object value}.

(** [str(result)]: [__str__] returns the error line when [error] is truthy
    and [output] itself if not; when [output] is not a [str], [str] raises
    TypeError. *)
Definition __str__ (self : ToolResult value) : result string :=
  if truthy_opt (error self) then Ok ("Error: " +:+ format_opt (error self))
  else match as_str (output self) with
       | Some o => Ok o
       | None => Raise (TypeError "__str__ returned non-string")
       end.

(** [self.dict()]: the four fields by name. *)
Definition dict (self : ToolResult value) : gmap string value :=
  <["output" := output self]>
    (<["error" := embed (error self)]>
       (<["base64_image" := embed (base64_image self)]>
          (<["system" := embed (system self)]> ∅))).

(** The constructor called with the entries of [d] as keyword arguments: a
    field missing from [d] takes its default [None], and a key that is no
    field is ignored. *)
Definition of_kwargs (d : gmap string value) : result (ToolResult value) :=
  construct (default none (d !! "output")) (default none (d !! "error"))
    (default none (d !! "base64_image")) (default none (d !! "system")).

(** [replace]: the constructor called with [self.dict()] updated by the
    keyword arguments; in the merged dictionary the keyword arguments win. *)
Definition replace (self : ToolResult value) (kwargs : gmap string value)
    : result (ToolResult value) :=
  of_kwargs (kwargs ∪ dict self).


(** [a + b + c], read as the interpreter does, and with the right sum
    first. *)
Definition add_left (a b c : ToolResult value) : result (ToolResult value) :=
  match __add__ a b with
  | Ok ab => __add__ ab c
  | Raise e => Raise e
  end.
Definition add_right (a b c : ToolResult value) : result (ToolResult value) :=
  match __add__ b c with
  | Ok bc => __add__ a bc
  | Raise e => Raise e
  end.

End WithObjects.


End ToolMore.

(** ** [app/agent/manus.py]: [Manus.get_browser_state] and [Manus.think] *)

Module Manus.

Import PyObject Tool.

(** The agent with the private attribute [get_browser_state] writes. *)
Record ManusAgent : Type := mkManus {
  agent : Agent;
  _current_base64_image : option string
}.

Definition set_agent (a : Agent) (self : ManusAgent) : ManusAgent :=
  mkManus a (_current_base64_image self).
Definition set_current_base64_image (img : option string) (self : ManusAgent)
    : ManusAgent :=
  mkManus (agent self) img.

Section Browser.

(** The values [json.loads] puts in a dictionary, with their truthiness and
    their rendering in an f-string. *)
Variable value : Type.
Variable truthy_value : value -> bool.
Variable format_value : value -> string.

(** What [json.loads] returns: a dictionary, or something else (a list, a
    text, a number, [None]) of which only the truthiness matters here. *)
Inductive browser_state : Type :=
| BS_dict (d : gmap string value)
| BS_other (is_truthy : bool).

(** The objects a tool's result may hold in [output]. *)
Context {object : Type} `{Object object}.

(** The lookup [self.available_tools.get_tool(BrowserUseTool().name)],
    which stands before the [try] and may raise; when it returns, the tool
    is absent, or present with the outcome of its [get_current_state()]. *)
Variable browser_tool : result (option (result (ToolResult object))).

(** [json.loads], applied to the [output] of the tool's result. *)
Variable loads : object -> result browser_state.

(** [get_browser_state]: what the lookup raises goes to the caller; the
    answer is [None] without the tool, on an error reported by the tool and
    on any [Exception] raised inside the [try]; the screenshot is kept on
    the way. *)
Definition get_browser_state (self : ManusAgent)
    : ManusAgent * result (option browser_state) :=
  match browser_tool with
  | Raise e => (self, Raise e)
  | Ok None => (self, Ok None)
  | Ok (Some (Raise e)) =>
      if is_Exception e then (self, Ok None) else (self, Raise e)
  | Ok (Some (Ok res)) =>
      if truthy_opt (error res) then (self, Ok None)
      else
        let self :=
          if truthy_opt (base64_image res)
          then set_current_base64_image (base64_image res) self
          else self in
        match loads (output res) with
        | Ok st => (self, Ok (Some st))
        | Raise e =>
            if is_Exception e then (self, Ok None) else (self, Raise e)
        end
  end.

(** [browser_state.get(key, 'N/A')] inside the f-string. *)
Definition get_or_NA (d : gmap string value) (key : string) : string :=
  match d !! key with
  | Some v => format_value v
  | None => "N/A"
  end.

(** The text [think] appends to the prompt. *)
Definition browser_text (d : gmap string value) : string :=
  newline +:+ "Current browser state:" +:+ newline
  +:+ "URL: " +:+ get_or_NA d "url" +:+ newline
  +:+ "Title: " +:+ get_or_NA d "title" +:+ newline.

(** [super().think()], of the tool-calling agent. *)
Variable parent_think : ManusAgent -> ManusAgent * result bool.

(** The rest of [think] once the browser state is known. *)
Definition think_with (browser : option browser_state) (self : ManusAgent)
    : ManusAgent * result bool :=
  let original_prompt := next_step_prompt (agent self) in
  let finish (self : ManusAgent) :=
    match parent_think self with
    | (self, Raise e) => (self, Raise e)
    | (self, Ok result_) =>
        (set_agent (set_next_step_prompt original_prompt (agent self)) self, Ok result_)
    end in
  match browser with
  | None | Some (BS_other false) => finish self
  | Some (BS_other true) => (self, Raise (Raised "AttributeError" true))
  | Some (BS_dict d) =>
      if decide (d = ∅) then finish self
      else if match d !! "error" with Some v => truthy_value v | None => false end
      then finish self
      else
        match original_prompt with
        | None => (self, Raise (TypeError "unsupported operand type(s) for +="))
        | Some p =>
            finish (set_agent (set_next_step_prompt (Some (p +:+ browser_text d))
                                 (agent self)) self)
        end
  end.

(** [think]. *)
Definition think (self : ManusAgent) : ManusAgent * result bool :=
  match get_browser_state self with
  | (self, Raise e) => (self, Raise e)
  | (self, Ok browser) => think_with browser self
  end.

End Browser.

End Manus.

(** ** [od.py]: [is_valid_str] *)

Module Od.

Local Open Scope char_scope.

(** The dictionary [_map]: each closing bracket with its opening one;
    [None] for a character that is no key. *)
Definition _map (char : ascii) : option ascii :=
  if Ascii.eqb char ")" then Some "("
  else if Ascii.eqb char "}" then Some "{"
  else if Ascii.eqb char "]" then Some "["
  else None.

(** The [for] loop of [is_valid_str] with the test after it.  [_stack] is
    the Python list: [append] adds at the end, [_stack[-1]] is the last
    element and [pop()] removes it.  The stack is only read after the test
    for emptiness, so the default given to [List.last] is never used. *)
Fixpoint scan (s : list ascii) (_stack : list ascii) : bool :=
  match s with
  | [] => (length _stack =? 0)%nat
  | char :: rest =>
      match _map char with
      | Some opening =>
          if (length _stack =? 0)%nat
             || negb (Ascii.eqb (List.last _stack "000") opening)
          then false
          else scan rest (removelast _stack)
      | None => scan rest (_stack ++ [char])
      end
  end.

(** [is_valid_str(s)], on the characters of [s]. *)
Definition is_valid_str (s : list ascii) : bool := scan s [].

(** The three pairs of brackets. *)
Inductive pair : ascii -> ascii -> Prop :=
| pair_round : pair "(" ")"
| pair_curly : pair "{" "}"
| pair_square : pair "[" "]".

(** Correctly nested bracket strings: the empty one, one in brackets of a
    pair, and two side by side. *)
Inductive balanced : list ascii -> Prop :=
| balanced_nil : balanced []
| balanced_wrap o c w : pair o c -> balanced w -> balanced (o :: w ++ [c])
| balanced_app w1 w2 : balanced w1 -> balanced w2 -> balanced (w1 ++ w2).

(** What is left to read closes the stack: each pending character, last
    one first, meets its closing bracket after a balanced stretch, and a
    balanced stretch ends the text. *)
Inductive closes : list ascii -> list ascii -> Prop :=
| closes_done s : balanced s -> closes [] s
| closes_next st o w c rest :
    balanced w -> pair o c -> closes st rest ->
    closes (st ++ [o]) (w ++ c :: rest).

Definition is_bracket (char : ascii) : bool :=
  existsb (Ascii.eqb char) ["("; ")"; "{"; "}"; "["; "]"].

End Od.

(** ** [od.py]: [longestPalinfrome] *)

Module OdPalindrome.

Local Open Scope nat_scope.

(** The indices are Python integers that the loops keep between 0 and the
    length of the string, so they are natural numbers here, and every read
    of the string and of the table is in range. *)

(** [s[i:i+len]]. *)
Definition slice (s : list ascii) (i len : nat) : list ascii := firstn len (skipn i s).

(** [s[i]], for an index in range. *)
Definition char_at (s : list ascii) (i : nat) : ascii := nth i s "000"%char.

(** [dp[i][j]] and [dp[i][j] = v] on the table of rows. *)
Definition dp_get (dp : list (list bool)) (i j : nat) : bool := nth j (nth i dp []) false.
Definition dp_set (dp : list (list bool)) (i j : nat) (v : bool) : list (list bool) :=
  <[i := <[j := v]> (nth i dp [])]> dp.

(** The variables the loops update, and what was printed. *)
Record pstate : Type := mkP {
  dp : list (list bool);
  max_len : nat;
  begin : nat;
  printed : list (nat * nat)
}.

(** The body of the inner loop after its [break] test. *)
Definition visit (s : list ascii) (i j : nat) (σ : pstate) : pstate :=
  let printed' := (printed σ ++ [(i, j)])%list in
  let dp' :=
    if negb (Ascii.eqb (char_at s i) (char_at s j)) then dp_set (dp σ) i j false
    else if (j - i <? 3)%nat then dp_set (dp σ) i j true
    else dp_set (dp σ) i j (dp_get (dp σ) (i + 1) (j - 1)) in
  if dp_get dp' i j && (max_len σ <? j - i + 1)%nat
  then mkP dp' (j - i + 1) i printed'
  else mkP dp' (max_len σ) (begin σ) printed'.

(** [for i in range(n)] for one length [l], with its [break]. *)
Fixpoint inner (s : list ascii) (n l : nat) (indices : list nat) (σ : pstate) : pstate :=
  match indices with
  | [] => σ
  | i :: rest =>
      let j := (l + i - 1)%nat in
      if (n <=? j)%nat then σ else inner s n l rest (visit s i j σ)
  end.

(** [longestPalinfrome(s)]: the substring returned and the pairs printed. *)
Definition longestPalinfrome (s : list ascii) : list ascii * list (nat * nat) :=
  let n := length s in
  if (n <? 2)%nat then (s, [])
  else
    let dp0 :=
      fold_left (fun dp i => dp_set dp i i true) (seq 0 n) (repeat (repeat false n) n) in
    let σ :=
      fold_left (fun σ l => inner s n l (seq 0 n) σ) (seq 2 (n - 1)) (mkP dp0 1 0 []) in
    (slice s (begin σ) (max_len σ), printed σ).

(** The table has [n] rows of [n] cells. *)
Definition square (n : nat) (dp : list (list bool)) : Prop :=
  length dp = n /\ List.Forall (fun row => length row = n) dp.

(** Reads the same in both directions. *)
Definition palindrome (w : list ascii) : Prop := rev w = w.

(** What holds of the table and of the best substring found once every
    substring shorter than [l] has been looked at. *)
Definition Inv (s : list ascii) (l : nat) (σ : pstate) : Prop :=
  square (length s) (dp σ)
  /\ (forall i len, 1 <= len -> len < l -> i + len <= length s ->
        dp_get (dp σ) i (i + len - 1) = bool_decide (palindrome (slice s i len)))
  /\ 1 <= max_len σ
  /\ begin σ + max_len σ <= length s
  /\ palindrome (slice s (begin σ) (max_len σ))
  /\ (forall i len, len < l -> i + len <= length s ->
        palindrome (slice s i len) -> len <= max_len σ).

(** The same in the middle of the pass for length [l], before index [i0]. *)
Definition InvIn (s : list ascii) (l i0 : nat) (σ : pstate) : Prop :=
  Inv s l σ
  /\ (forall i, i < i0 -> i + l <= length s ->
        dp_get (dp σ) i (i + l - 1) = bool_decide (palindrome (slice s i l)))
  /\ (forall i, i < i0 -> i + l <= length s ->
        palindrome (slice s i l) -> l <= max_len σ).

End OdPalindrome.

(** ** Names used by the further properties *)

Module MoreParts.

(** [n] copies of a text, one after the other. *)
Fixpoint copies (n : nat) (s : string) : string :=
  match n with
  | O => EmptyString
  | S n' => s +:+ copies n' s
  end.

(** The same agent with another duplicate threshold. *)
Definition with_threshold (t : Z) (self : Agent) : Agent :=
  mkAgent (next_step_prompt self) (memory self) (state self) (max_steps self)
    (current_step self) t.

(** The same agent with a budget of three steps. *)
Definition set_max_steps_3 (self : Agent) : Agent :=
  mkAgent (next_step_prompt self) (memory self) (state self) 3
    (current_step self) (duplicate_threshold self).

(** The four role names [update_memory] accepts. *)
Definition supported_role (role : string) : bool :=
  String.eqb role "user" || String.eqb role "system"
  || String.eqb role "assistant" || String.eqb role "tool".

End MoreParts.
Export MoreParts.

(** * Properties *)

(** ** The agent loop *)

Module BaseAgentSpec.

Import Samples.

Lemma AgentState_eqb_eq a b : AgentState_eqb a b = true <-> a = b.
Proof. destruct a, b; simpl; split; congruence. Qed.

Lemma AgentState_eqb_neq a b : AgentState_eqb a b = false <-> a <> b.
Proof. destruct a, b; simpl; split; congruence. Qed.

(** After the stuck check the loop still sees the fields the step left. *)
Lemma stuck_check_keeps self :
  state (stuck_check self) = state self
  /\ current_step (stuck_check self) = current_step self
  /\ max_steps (stuck_check self) = max_steps self
  /\ memory (stuck_check self) = memory self.
Proof. unfold stuck_check. destruct (is_stuck self); repeat split. Qed.

Lemma with_request_fields request self :
  state (with_request request self) = state self
  /\ current_step (with_request request self) = current_step self
  /\ max_steps (with_request request self) = max_steps self
  /\ next_step_prompt (with_request request self) = next_step_prompt self
  /\ duplicate_threshold (with_request request self) = duplicate_threshold self.
Proof.
  unfold with_request. destruct request as [r|]; [destruct (truthy r)|]; repeat split.
Qed.

(** [run] from IDLE is the scoped body applied after the request. *)
Lemma run_from_IDLE step fuel self request :
  state self = IDLE ->
  run step fuel self request =
    match state_context RUNNING (run_body step fuel) (with_request request self) with
    | None => None
    | Some (self', Raise e) => Some (self', Raise e)
    | Some (self', Ok results) =>
        Some (self', Ok (match results with
                         | [] => "No steps executed"
                         | _ => join newline results
                         end))
    end.
Proof.
  intros Hidle. unfold run. rewrite Hidle. simpl.
  unfold with_request. destruct request as [r|]; [destruct (truthy r)|]; reflexivity.
Qed.

(** C5: an agent that is not IDLE cannot be run: whatever the request,
    the step function and the fuel, [run] raises the RuntimeError of its
    guard and hands the agent back as it was (state, step counter and
    memory untouched); the outcome does not depend on [step], which is
    never called. *)
Theorem run_outside_IDLE_fails (step : Agent -> outcome string) (fuel : nat)
    (self : Agent) (request : option string) :
  state self <> IDLE ->
  run step fuel self request = Some (self, Raise (RuntimeError_state (state self))).
Proof.
  intros Hstate. unfold run.
  destruct (AgentState_eqb (state self) IDLE) eqn:E; [|reflexivity].
  apply AgentState_eqb_eq in E. contradiction.
Qed.

Lemma run_outside_IDLE_fails_witness :
  run failing_step 0 (set_state FINISHED (fresh 3)) (Some "go")
  = Some (set_state FINISHED (fresh 3), Raise (RuntimeError_state FINISHED)).
Proof.
  apply (run_outside_IDLE_fails failing_step 0 (set_state FINISHED (fresh 3)) (Some "go")).
  simpl. discriminate.
Defined.

(** With the counter at or past the budget the loop body does not run. *)
Lemma run_loop_budget_spent step fuel self results :
  max_steps self <= current_step self ->
  run_loop step fuel self results = Some (self, Ok results).
Proof.
  intros Hle. destruct fuel; simpl;
    (destruct (current_step self <? max_steps self) eqn:E; [lia | reflexivity]).
Qed.

(** C2 as stated fails: a fresh IDLE agent with max_steps = 0 gets the
    termination record, not the sentinel. *)
Lemma run_max_steps_0_sentinel_counterexample :
  run stub_step 0 (fresh 0) None
    = Some (fresh 0, Ok "Terminated: Reached max steps (0)")
  /\ run stub_step 0 (fresh 0) None <> Some (fresh 0, Ok "No steps executed").
Proof. split; [reflexivity | discriminate]. Qed.

(** C2, amended: for an IDLE agent with max_steps = 0 and a step counter
    that is not negative, the loop body never runs and [run] returns the
    termination record for a budget of 0, with the counter at 0 and the
    state IDLE; the request, if any, is in memory. *)
Theorem run_max_steps_0 (step : Agent -> outcome string) (fuel : nat)
    (self : Agent) (request : option string) :
  state self = IDLE -> max_steps self = 0 -> 0 <= current_step self ->
  run step fuel self request
  = Some (set_current_step 0 (with_request request self),
          Ok "Terminated: Reached max steps (0)").
Proof.
  intros Hidle Hmax Hcur.
  rewrite (run_from_IDLE _ _ _ _ Hidle).
  destruct (with_request_fields request self) as (Hs & Hc & Hm & _).
  unfold state_context, run_body.
  rewrite run_loop_budget_spent by (simpl; lia).
  simpl. rewrite Hm, Hmax, Hc, Hs.
  destruct (current_step self >=? 0) eqn:E; [|lia].
  simpl. unfold set_state, set_current_step; simpl. rewrite <- Hs. reflexivity.
Qed.

Lemma run_max_steps_0_witness :
  run failing_step 0 (fresh 0) (Some "hello")
  = Some (set_current_step 0 (with_request (Some "hello") (fresh 0)),
          Ok "Terminated: Reached max steps (0)").
Proof.
  apply (run_max_steps_0 failing_step 0 (fresh 0) (Some "hello"));
    [reflexivity | reflexivity | simpl; lia].
Defined.

(** One iteration of the loop in which [step] returns. *)
Lemma run_loop_next step fuel self results self1 r :
  loop_cond self = true ->
  step (entering_step self) = (self1, Ok r) ->
  run_loop step (S fuel) self results
  = run_loop step fuel (stuck_check self1)
      (results ++ [step_record (current_step self1) r])%list.
Proof.
  intros Hcond Hstep. unfold loop_cond in Hcond. simpl. rewrite Hcond.
  unfold entering_step in Hstep. rewrite Hstep.
  fold (stuck_check self1).
  destruct (stuck_check_keeps self1) as (_ & -> & _). reflexivity.
Qed.

(** One iteration of the loop in which [step] raises. *)
Lemma run_loop_raise step fuel self results self1 e :
  loop_cond self = true ->
  step (entering_step self) = (self1, Raise e) ->
  run_loop step (S fuel) self results = Some (self1, Raise e).
Proof.
  intros Hcond Hstep. unfold loop_cond in Hcond. simpl. rewrite Hcond.
  unfold entering_step in Hstep. rewrite Hstep. reflexivity.
Qed.

(** The loop stops where its condition fails. *)
Lemma run_loop_stop step fuel self results :
  loop_cond self = false ->
  run_loop step fuel self results = Some (self, Ok results).
Proof.
  intros Hcond. unfold loop_cond in Hcond. destruct fuel; simpl; rewrite Hcond; reflexivity.
Qed.

(** C3 as stated fails: with max_steps = 1 the step that finishes at once
    also exhausts the budget, and the summary has two lines. *)
Lemma run_finishing_step_counterexample :
  run finishing_step 1 (fresh 1) None
    = Some (fresh 1,
            Ok ("Step 1: done" +:+ newline +:+ "Terminated: Reached max steps (1)"))
  /\ run finishing_step 1 (fresh 1) None <> Some (fresh 1, Ok "Step 1: done").
Proof. split; [reflexivity | discriminate]. Qed.

(** C3, amended: for an IDLE agent with max_steps = 1 and the step counter
    at 0, whose step sets the state to FINISHED and returns the text done
    without touching memory, [run] returns the two-line summary made of the
    record of step 1 and the termination record for a budget of 1; the
    counter is back at 0, the state is IDLE and memory holds what it held
    after the request. *)
Theorem run_finishing_step_max_1 (step : Agent -> outcome string) (fuel : nat)
    (self : Agent) (request : option string) :
  (forall a, step a = (set_state FINISHED a, Ok "done")) ->
  state self = IDLE -> max_steps self = 1 -> current_step self = 0 ->
  (1 <= fuel)%nat ->
  exists self',
    run step fuel self request
    = Some (self',
            Ok ("Step 1: done" +:+ newline +:+ "Terminated: Reached max steps (1)"))
    /\ state self' = IDLE /\ current_step self' = 0
    /\ memory self' = memory (with_request request self).
Proof.
  intros Hstep Hidle Hmax Hcur Hfuel.
  rewrite (run_from_IDLE _ _ _ _ Hidle).
  destruct (with_request_fields request self) as (Hs & Hc & Hm & _).
  set (w := with_request request self) in *.
  destruct fuel as [|fuel]; [lia|].
  unfold state_context, run_body.
  rewrite (run_loop_next step fuel (set_state RUNNING w) []
             (set_state FINISHED (entering_step (set_state RUNNING w))) "done");
    [ | unfold loop_cond; simpl; rewrite Hc, Hm, Hcur, Hmax; reflexivity
      | apply Hstep ].
  set (a1 := set_state FINISHED (entering_step (set_state RUNNING w))).
  destruct (stuck_check_keeps a1) as (Hs1 & Hc1 & Hm1 & Hmem1).
  rewrite run_loop_stop
    by (unfold loop_cond; rewrite Hs1; simpl; apply andb_false_r).
  rewrite Hc1, Hm1. simpl. rewrite Hc, Hm, Hcur, Hmax. simpl.
  eexists. split; [reflexivity|].
  simpl. rewrite Hmem1. simpl. rewrite Hs, Hidle. auto.
Qed.

Lemma run_finishing_step_max_1_witness :
  exists self',
    run finishing_step 1 (fresh 1) (Some "hello")
    = Some (self',
            Ok ("Step 1: done" +:+ newline +:+ "Terminated: Reached max steps (1)"))
    /\ state self' = IDLE /\ current_step self' = 0
    /\ memory self' = memory (with_request (Some "hello") (fresh 1)).
Proof.
  apply (run_finishing_step_max_1 finishing_step 1 (fresh 1) (Some "hello"));
    [intros a; reflexivity | reflexivity | reflexivity | reflexivity | lia].
Defined.

(** With a larger budget the same step gives the one-line summary. *)
Lemma run_finishing_step_max_2 (step : Agent -> outcome string) (fuel : nat)
    (self : Agent) (request : option string) :
  (forall a, step a = (set_state FINISHED a, Ok "done")) ->
  state self = IDLE -> 2 <= max_steps self -> current_step self = 0 ->
  (1 <= fuel)%nat ->
  exists self',
    run step fuel self request = Some (self', Ok "Step 1: done")
    /\ state self' = IDLE /\ current_step self' = 1.
Proof.
  intros Hstep Hidle Hmax Hcur Hfuel.
  rewrite (run_from_IDLE _ _ _ _ Hidle).
  destruct (with_request_fields request self) as (Hs & Hc & Hm & _).
  set (w := with_request request self) in *.
  destruct fuel as [|fuel]; [lia|].
  unfold state_context, run_body.
  rewrite (run_loop_next step fuel (set_state RUNNING w) []
             (set_state FINISHED (entering_step (set_state RUNNING w))) "done");
    [ | unfold loop_cond; simpl; rewrite Hc, Hm, Hcur;
        destruct (0 <? max_steps self) eqn:E; [reflexivity | lia]
      | apply Hstep ].
  set (a1 := set_state FINISHED (entering_step (set_state RUNNING w))).
  destruct (stuck_check_keeps a1) as (Hs1 & Hc1 & Hm1 & Hmem1).
  rewrite run_loop_stop
    by (unfold loop_cond; rewrite Hs1; simpl; apply andb_false_r).
  rewrite Hc1, Hm1. simpl. rewrite Hc, Hm, Hcur. change (0 + 1) with 1.
  destruct (1 >=? max_steps self) eqn:E; [lia|].
  eexists. split; [reflexivity|].
  simpl. rewrite Hc1. simpl. rewrite Hs, Hc, Hcur. auto.
Qed.

(** *** Lines of a summary *)

Lemma split_lines_nonempty s : split_lines s <> [].
Proof.
  destruct s as [|c s]; simpl; [discriminate|].
  destruct (Ascii.eqb c (ascii_of_nat 10)); [discriminate|].
  destruct (split_lines s); discriminate.
Qed.

Lemma split_lines_one_line s : has_newline s = false -> split_lines s = [s].
Proof.
  induction s as [|c s IH]; simpl; [reflexivity|].
  destruct (Ascii.eqb c (ascii_of_nat 10)); simpl; [discriminate|].
  intros H. rewrite (IH H). reflexivity.
Qed.

Lemma split_lines_app a b :
  split_lines (a +:+ newline +:+ b) = (split_lines a ++ split_lines b)%list.
Proof.
  induction a as [|c a IH]; simpl.
  - reflexivity.
  - destruct (Ascii.eqb c (ascii_of_nat 10)).
    + simpl in IH. rewrite IH. reflexivity.
    + simpl in IH. rewrite IH.
      destruct (split_lines a) as [|l ls] eqn:E; [|reflexivity].
      exfalso. exact (split_lines_nonempty a E).
Qed.

Lemma last_app_nonempty {A} (l l' : list A) d :
  l' <> [] -> List.last (l ++ l')%list d = List.last l' d.
Proof.
  intros Hne. induction l as [|x l IH]; simpl; [reflexivity|].
  destruct (l ++ l')%list eqn:E; [|exact IH].
  destruct l; [simpl in E; contradiction | discriminate].
Qed.

Lemma last_line_app a b : last_line (a +:+ newline +:+ b) = last_line b.
Proof.
  unfold last_line. rewrite split_lines_app.
  apply last_app_nonempty, split_lines_nonempty.
Qed.

Lemma last_line_one_line s : has_newline s = false -> last_line s = s.
Proof. intros H. unfold last_line. rewrite (split_lines_one_line s H). reflexivity. Qed.

Lemma join_cons sep x y (l : list string) :
  join sep (x :: y :: l) = x +:+ sep +:+ join sep (y :: l).
Proof. reflexivity. Qed.

(** The last line of a joined summary is its last record, when that record
    is a single line. *)
Lemma last_line_join (rs : list string) t :
  has_newline t = false -> last_line (join newline (rs ++ [t])%list) = t.
Proof.
  intros Ht. induction rs as [|x rs IH]; simpl app.
  - simpl. apply last_line_one_line, Ht.
  - destruct (rs ++ [t])%list as [|y l] eqn:E.
    + destruct rs; discriminate.
    + rewrite join_cons, last_line_app. exact IH.
Qed.

Lemma has_newline_app a b : has_newline (a +:+ b) = has_newline a || has_newline b.
Proof.
  induction a as [|c a IH]; simpl; [reflexivity|].
  rewrite IH. apply orb_assoc.
Qed.

Lemma has_newline_uint d : has_newline (NilEmpty.string_of_uint d) = false.
Proof. induction d; simpl; auto. Qed.

Lemma has_newline_str_of_int n : has_newline (str_of_int n) = false.
Proof.
  unfold str_of_int, NilZero.string_of_int, NilZero.string_of_uint.
  destruct (Z.to_int n) as [d|d]; destruct d; simpl; auto using has_newline_uint.
Qed.

Lemma has_newline_terminated_record n : has_newline (terminated_record n) = false.
Proof.
  unfold terminated_record. rewrite !has_newline_app, has_newline_str_of_int. reflexivity.
Qed.

(** *** A stub that never finishes *)

Section Stub.

Variable step : Agent -> outcome string.
Variable s : string.

(** The stub returns [s], leaves the counter and the budget alone and does
    not set FINISHED; it may do anything else. *)
Hypothesis stub :
  forall a, exists a',
    step a = (a', Ok s)
    /\ current_step a' = current_step a
    /\ max_steps a' = max_steps a
    /\ (state a <> FINISHED -> state a' <> FINISHED).

Lemma loop_cond_true a :
  state a <> FINISHED -> current_step a < max_steps a -> loop_cond a = true.
Proof.
  intros Hs Hlt. unfold loop_cond.
  apply andb_true_intro. split; [lia|].
  apply negb_true_iff, AgentState_eqb_neq, Hs.
Qed.

(** With enough fuel the loop runs until the counter reaches the budget. *)
Lemma run_loop_stub fuel : forall a results,
  state a <> FINISHED ->
  (Z.to_nat (max_steps a - current_step a) <= fuel)%nat ->
  exists a',
    run_loop step fuel a results
    = Some (a', Ok (results
                    ++ stub_records s (current_step a)
                         (Z.to_nat (max_steps a - current_step a)))%list)
    /\ max_steps a' = max_steps a
    /\ max_steps a <= current_step a'.
Proof.
  induction fuel as [|fuel IH]; intros a results Hs Hfuel.
  - exists a. rewrite run_loop_budget_spent by lia.
    replace (Z.to_nat (max_steps a - current_step a)) with O by lia.
    simpl. rewrite app_nil_r. repeat split; lia.
  - destruct (Z_lt_le_dec (current_step a) (max_steps a)) as [Hlt|Hge].
    + destruct (stub (entering_step a)) as (a1 & Hstep & Hc & Hm & Hs1).
      rewrite (run_loop_next step fuel a results a1 s (loop_cond_true a Hs Hlt) Hstep).
      destruct (stuck_check_keeps a1) as (Hs2 & Hc2 & Hm2 & _).
      simpl in Hc, Hm.
      destruct (IH (stuck_check a1)
                  (results ++ [step_record (current_step a1) s])%list)
        as (a' & Hrun & Hm' & Hc').
      * rewrite Hs2. apply Hs1. exact Hs.
      * rewrite Hc2, Hm2, Hc, Hm. lia.
      * exists a'. rewrite Hrun, Hc2, Hm2, Hc, Hm.
        replace (Z.to_nat (max_steps a - current_step a))
          with (S (Z.to_nat (max_steps a - (current_step a + 1)))) by lia.
        simpl. rewrite <- app_assoc. simpl.
        repeat split; [congruence | lia].
    + exists a. rewrite run_loop_budget_spent by lia.
      replace (Z.to_nat (max_steps a - current_step a)) with O by lia.
      simpl. rewrite app_nil_r. repeat split; lia.
Qed.

(** The whole run of a stub: every step recorded, then the termination
    record. *)
Lemma run_stub_summary fuel self request :
  state self = IDLE ->
  (Z.to_nat (max_steps self - current_step self) <= fuel)%nat ->
  exists self',
    run step fuel self request
    = Some (self',
            Ok (join newline
                  (stub_records s (current_step self)
                     (Z.to_nat (max_steps self - current_step self))
                   ++ [terminated_record (max_steps self)])%list))
    /\ current_step self' = 0 /\ state self' = IDLE.
Proof.
  intros Hidle Hfuel.
  rewrite (run_from_IDLE _ _ _ _ Hidle).
  destruct (with_request_fields request self) as (Hs & Hc & Hm & _).
  set (w := with_request request self) in *.
  unfold state_context, run_body.
  destruct (run_loop_stub fuel (set_state RUNNING w) []) as (a' & Hrun & Hm' & Hc').
  - simpl. discriminate.
  - simpl. rewrite Hc, Hm. exact Hfuel.
  - rewrite Hrun. simpl in Hm', Hc'. simpl current_step. simpl max_steps.
    destruct (current_step a' >=? max_steps a') eqn:E; [|lia].
    rewrite Hm', Hc, Hm. simpl app.
    eexists. split.
    + destruct (stub_records s (current_step self)
                  (Z.to_nat (max_steps self - current_step self))
                ++ [terminated_record (max_steps self)])%list eqn:El.
      * destruct (stub_records s (current_step self)
                    (Z.to_nat (max_steps self - current_step self))); discriminate.
      * reflexivity.
    + simpl. rewrite Hs. auto.
Qed.

End Stub.

(** C4: for a budget N >= 1 and a stub step that returns a fixed text and
    never sets FINISHED, [run] from IDLE returns (given fuel for the
    iterations it needs); afterwards the step counter is 0, the state is
    IDLE and the last line of the summary is the termination record
    for the budget N. *)
Theorem run_budget_exhausted (step : Agent -> outcome string) (s : string)
    (N : Z) (fuel : nat) (self : Agent) (request : option string) :
  (forall a, exists a',
      step a = (a', Ok s)
      /\ current_step a' = current_step a
      /\ max_steps a' = max_steps a
      /\ (state a <> FINISHED -> state a' <> FINISHED)) ->
  1 <= N -> max_steps self = N -> state self = IDLE ->
  (Z.to_nat (N - current_step self) <= fuel)%nat ->
  exists self' summary,
    run step fuel self request = Some (self', Ok summary)
    /\ current_step self' = 0
    /\ state self' = IDLE
    /\ last_line summary = "Terminated: Reached max steps (" +:+ str_of_int N +:+ ")".
Proof.
  intros Hstub HN Hmax Hidle Hfuel. subst N.
  destruct (run_stub_summary step s Hstub fuel self request Hidle Hfuel)
    as (self' & Hrun & Hc & Hs).
  exists self'. eexists. split; [exact Hrun|].
  split; [exact Hc|]. split; [exact Hs|].
  apply (last_line_join _ (terminated_record (max_steps self))).
  apply has_newline_terminated_record.
Qed.

Lemma run_budget_exhausted_witness :
  exists self' summary,
    run stub_step 3 (fresh 3) (Some "hello") = Some (self', Ok summary)
    /\ current_step self' = 0
    /\ state self' = IDLE
    /\ last_line summary = "Terminated: Reached max steps (" +:+ str_of_int 3 +:+ ")".
Proof.
  apply (run_budget_exhausted stub_step "ok" 3 3 (fresh 3) (Some "hello")).
  - intros a. exists a. unfold stub_step. repeat split. auto.
  - lia.
  - reflexivity.
  - reflexivity.
  - simpl. lia.
Defined.

(** *** A step that raises *)

(** The scoped transition puts the previous state back on every way out:
    the ERROR written by the handler does not survive the exit path. *)
Lemma state_context_restores {A} new_state (body : Agent -> option (outcome A))
    self self' r :
  state_context new_state body self = Some (self', r) ->
  state self' = state self.
Proof.
  unfold state_context.
  destruct (body (set_state new_state self)) as [[b [v|e]]|]; [| |discriminate].
  - intros [= <- _]. reflexivity.
  - intros [= <- _]. destruct (is_Exception e); reflexivity.
Qed.

(** Whatever [run] does once past its guard, it leaves the agent IDLE. *)
Lemma run_leaves_IDLE step fuel self request self' r :
  state self = IDLE ->
  run step fuel self request = Some (self', r) ->
  state self' = IDLE.
Proof.
  intros Hidle. rewrite (run_from_IDLE _ _ _ _ Hidle).
  destruct (with_request_fields request self) as (Hs & _).
  destruct (state_context RUNNING (run_body step fuel) (with_request request self))
    as [[b res]|] eqn:E; [|discriminate].
  apply state_context_restores in E.
  destruct res; intros [= <- _]; congruence.
Qed.

(** Finished iterations only use up fuel. *)
Lemma run_loop_iterates step a rs b rs' :
  iterates step a rs b rs' ->
  exists n, forall fuel,
    run_loop step (n + fuel) a rs = run_loop step fuel b rs'.
Proof.
  induction 1 as [a rs | a rs a1 r b rs' Hcond Hstep _ [n IH]].
  - exists O. reflexivity.
  - exists (S n). intros fuel. simpl plus.
    rewrite (run_loop_next step (n + fuel) a rs a1 r Hcond Hstep). apply IH.
Qed.

(** C1 as stated fails: the first step of a fresh agent raises, the
    exception reaches the caller, and the agent is IDLE, not ERROR. *)
Lemma run_failing_step_counterexample :
  run failing_step 1 (fresh 3) None = Some (set_current_step 1 (fresh 3), Raise boom)
  /\ state (set_current_step 1 (fresh 3)) = IDLE
  /\ state (set_current_step 1 (fresh 3)) <> ERROR.
Proof. repeat split. discriminate. Qed.

(** C1, amended: when, in a run started from IDLE, the loop reaches (after
    any number of finished iterations) an iteration whose [step] raises
    [e], the run ends (given fuel for those iterations) by raising that same
    [e] to the caller, and the agent's state is then the state the run
    started from, IDLE: the handler's ERROR is overwritten by the restore on
    the exit path.  The other fields are as the failing step left them. *)
Theorem run_step_raises (step : Agent -> outcome string) (self : Agent)
    (request : option string) (b : Agent) (rs : list string) (b1 : Agent) (e : exn) :
  state self = IDLE ->
  iterates step (set_state RUNNING (with_request request self)) [] b rs ->
  loop_cond b = true ->
  step (entering_step b) = (b1, Raise e) ->
  exists fuel0, forall fuel, (fuel0 <= fuel)%nat ->
    exists self',
      run step fuel self request = Some (self', Raise e)
      /\ state self' = IDLE
      /\ self' = set_state IDLE b1.
Proof.
  intros Hidle Hiter Hcond Hstep.
  destruct (run_loop_iterates _ _ _ _ _ Hiter) as [n Hn].
  exists (n + 1)%nat. intros fuel Hfuel.
  replace fuel with (n + S (fuel - (n + 1)))%nat by lia.
  exists (set_state IDLE b1).
  rewrite (run_from_IDLE _ _ _ _ Hidle).
  destruct (with_request_fields request self) as (Hs & _).
  unfold state_context, run_body.
  rewrite Hn, (run_loop_raise step _ b rs b1 e Hcond Hstep).
  rewrite Hs, Hidle.
  destruct (is_Exception e); repeat split.
Qed.

Lemma run_step_raises_witness :
  exists fuel0, forall fuel, (fuel0 <= fuel)%nat ->
    exists self',
      run third_fails fuel (fresh 5) None = Some (self', Raise boom)
      /\ state self' = IDLE
      /\ self' = set_state IDLE (set_current_step 3 (set_state RUNNING (fresh 5))).
Proof.
  apply (run_step_raises third_fails (fresh 5) None
           (set_current_step 2 (set_state RUNNING (fresh 5)))
           ["Step 1: ok"; "Step 2: ok"]
           (set_current_step 3 (set_state RUNNING (fresh 5))) boom).
  - reflexivity.
  - eapply iterates_next; [reflexivity | reflexivity |].
    eapply iterates_next; [reflexivity | reflexivity |].
    apply iterates_here.
  - reflexivity.
  - reflexivity.
Defined.

(** *** Stuck detection *)

Lemma sum_of_ones {A} (l : list A) z :
  fold_left Z.add (map (fun _ => 1) l) z = z + Z.of_nat (length l).
Proof.
  revert z. induction l as [|x l IH]; intros z; simpl fold_left; simpl length.
  - lia.
  - rewrite IH. lia.
Qed.

Lemma filter_rev_length {A} (f : A -> bool) (l : list A) :
  length (List.filter f (rev l)) = length (List.filter f l).
Proof.
  induction l as [|x l IH]; [reflexivity|].
  simpl rev. rewrite List.filter_app, List.length_app, IH. simpl.
  destruct (f x); simpl; lia.
Qed.

(** The generator sum of [is_stuck] is the count of the description. *)
Lemma is_stuck_count (messages : list Message) c :
  fold_left Z.add
    (map (fun _ => 1)
       (List.filter
          (fun msg => Role_eqb (role msg) assistant && String.eqb (content msg) c)
          (rev (removelast messages)))) 0
  = Z.of_nat (length (List.filter (repeats c) (removelast messages))).
Proof. rewrite sum_of_ones, filter_rev_length. reflexivity. Qed.

(** [is_stuck] in one formula. *)
Lemma is_stuck_eq self :
  is_stuck self
  = negb (length (memory self) <? 2)%nat
    && truthy (last_content (memory self))
    && (duplicate_threshold self <=? Z.of_nat (prior_duplicates (memory self))).
Proof.
  unfold is_stuck, prior_duplicates, last_content.
  destruct (length (memory self) <? 2)%nat eqn:El; [reflexivity|].
  destruct (last (memory self)) as [m|] eqn:Elast.
  - rewrite is_stuck_count. destruct (truthy (content m)); reflexivity.
  - reflexivity.
Qed.

Lemma filter_all {A} (f : A -> bool) (l : list A) :
  List.Forall (fun x => f x = true) l -> List.filter f l = l.
Proof.
  induction 1 as [|x l Hx _ IH]; simpl; [reflexivity|]. rewrite Hx, IH. reflexivity.
Qed.

(** C6 as stated fails, in three places: an empty last content is never
    stuck, however often it was repeated; exactly duplicate_threshold
    identical assistant messages at the end are not enough; and earlier,
    non-trailing repetitions count as well. *)
Lemma is_stuck_counterexample :
  (* three assistant messages with empty content, threshold 2 *)
  ((2 <= length (memory (holding [blank; blank; blank] 2)))%nat
   /\ 2 <= Z.of_nat (prior_duplicates (memory (holding [blank; blank; blank] 2)))
   /\ is_stuck (holding [blank; blank; blank] 2) = false)
  (* two trailing identical assistant messages, threshold 2 *)
  /\ is_stuck (holding [A_; A_] 2) = false
  (* one trailing assistant message, two earlier ones, threshold 2 *)
  /\ is_stuck (holding [A_; A_; user_message "B" None; A_] 2) = true.
Proof.
  split; [split; [|split]|split].
  - simpl. lia.
  - vm_compute. discriminate.
  - reflexivity.
  - reflexivity.
  - reflexivity.
Qed.

(** C6, amended: [is_stuck] returns false whenever memory holds fewer than
    two messages or the last message's content is empty; otherwise it
    returns true exactly when the number of messages before the last one
    that have role assistant and content equal to the last message's content
    reaches duplicate_threshold.  In particular a memory of two or more
    messages that ends with more than duplicate_threshold assistant messages
    of one non-empty content is stuck (threshold 2, three messages A: stuck),
    and a memory with fewer than duplicate_threshold such earlier messages is
    not. *)
Theorem is_stuck_characterised (self : Agent) :
  ((length (memory self) < 2)%nat -> is_stuck self = false)
  /\ (last_content (memory self) = EmptyString -> is_stuck self = false)
  /\ ((2 <= length (memory self))%nat ->
      last_content (memory self) <> EmptyString ->
      is_stuck self
      = (duplicate_threshold self <=? Z.of_nat (prior_duplicates (memory self))))
  /\ (forall pre tl c,
        memory self = (pre ++ tl)%list ->
        List.Forall (fun m => role m = assistant /\ content m = c) tl ->
        c <> EmptyString ->
        (2 <= length (memory self))%nat ->
        tl <> [] ->
        duplicate_threshold self < Z.of_nat (length tl) ->
        is_stuck self = true)
  /\ (Z.of_nat (prior_duplicates (memory self)) < duplicate_threshold self ->
      is_stuck self = false)
  /\ is_stuck (holding [A_; A_; A_] 2) = true.
Proof.
  rewrite is_stuck_eq.
  split; [|split; [|split; [|split; [|split]]]].
  - intros H. apply Nat.ltb_lt in H. rewrite H. reflexivity.
  - intros ->. change (truthy "") with false.
    rewrite andb_false_r. reflexivity.
  - intros Hlen Hc.
    destruct (length (memory self) <? 2)%nat eqn:E; [apply Nat.ltb_lt in E; lia|].
    unfold truthy. destruct (String.eqb_spec (last_content (memory self)) "");
      [contradiction | reflexivity].
  - intros pre tl c Hmem Hall Hc Hlen Hne Hthr.
    destruct (exists_last Hne) as (tl' & m & ->).
    rewrite Hmem, app_assoc in *.
    assert (Hlast : last_content ((pre ++ tl') ++ [m]) = c).
    { unfold last_content. rewrite last_snoc.
      apply List.Forall_app in Hall as [_ Hm]. inversion Hm as [|? ? [_ Hmc] _]; subst.
      reflexivity. }
    destruct (length ((pre ++ tl') ++ [m]) <? 2)%nat eqn:E;
      [apply Nat.ltb_lt in E; lia|].
    unfold prior_duplicates. rewrite Hlast, removelast_last.
    unfold truthy. destruct (String.eqb_spec c ""); [contradiction|]. simpl.
    apply Z.leb_le.
    rewrite List.filter_app, List.length_app.
    rewrite (filter_all (repeats c) tl').
    + rewrite List.length_app in Hthr. simpl in Hthr. lia.
    + apply List.Forall_app in Hall as [Hall _].
      eapply List.Forall_impl; [|exact Hall].
      intros x [Hr Hx]. unfold repeats. rewrite Hr, Hx, String.eqb_refl. reflexivity.
  - intros Hlt. apply andb_false_intro2. apply Z.leb_gt. exact Hlt.
  - reflexivity.
Qed.

Lemma is_stuck_characterised_witness :
  is_stuck (holding [user_message "hi" None; A_; A_; A_] 2) = true.
Proof.
  destruct (is_stuck_characterised (holding [user_message "hi" None; A_; A_; A_] 2))
    as (_ & _ & _ & Htrail & _).
  apply (Htrail [user_message "hi" None] [A_; A_; A_] "A").
  - reflexivity.
  - repeat constructor.
  - discriminate.
  - simpl. lia.
  - discriminate.
  - simpl. lia.
Defined.

(** *** The sentinel and the fuel *)

(** A loop that returns either did nothing, its condition being false at
    the start, or added a record. *)
Lemma run_loop_results step fuel : forall a rs a' rs',
  run_loop step fuel a rs = Some (a', Ok rs') ->
  (rs' = rs /\ a' = a /\ loop_cond a = false) \/ (length rs < length rs')%nat.
Proof.
  induction fuel as [|fuel IH]; intros a rs a' rs' Hrun;
    destruct (loop_cond a) eqn:Hcond.
  - unfold loop_cond in Hcond. simpl in Hrun. rewrite Hcond in Hrun. discriminate.
  - rewrite (run_loop_stop _ _ _ _ Hcond) in Hrun. injection Hrun as <- <-. auto.
  - destruct (step (entering_step a)) as [a1 [r|e]] eqn:Hstep.
    + rewrite (run_loop_next _ _ _ _ _ _ Hcond Hstep) in Hrun.
      right. apply IH in Hrun as [(-> & _) | Hlt].
      * rewrite List.length_app. simpl. lia.
      * rewrite List.length_app in Hlt. simpl in Hlt. lia.
    + rewrite (run_loop_raise _ _ _ _ _ _ Hcond Hstep) in Hrun. discriminate.
  - rewrite (run_loop_stop _ _ _ _ Hcond) in Hrun. injection Hrun as <- <-. auto.
Qed.

(** A run from IDLE that returns always has a record to join: the fallback
    text for an empty record list is never what [run] returns. *)
Lemma run_summary_has_records step fuel self request self' summary :
  state self = IDLE ->
  run step fuel self request = Some (self', Ok summary) ->
  exists results, results <> [] /\ summary = join newline results.
Proof.
  intros Hidle. rewrite (run_from_IDLE _ _ _ _ Hidle).
  unfold state_context, run_body.
  set (w := set_state RUNNING (with_request request self)).
  destruct (run_loop step fuel w []) as [[a' [rs'|e]]|] eqn:Hloop;
    [| destruct (is_Exception e); discriminate | discriminate].
  destruct (current_step a' >=? max_steps a') eqn:Hge.
  - intros [= _ <-]. exists (rs' ++ [terminated_record (max_steps a')])%list.
    split; [destruct rs'; discriminate|].
    destruct (rs' ++ [terminated_record (max_steps a')])%list eqn:E;
      [destruct rs'; discriminate | reflexivity].
  - apply run_loop_results in Hloop as [(-> & -> & Hcond) | Hlt].
    + unfold loop_cond in Hcond. subst w. simpl in Hcond. simpl in Hge.
      rewrite andb_true_r in Hcond. lia.
    + intros [= _ <-]. exists rs'. split; [destruct rs'; [simpl in Hlt; lia | discriminate]|].
      destruct rs'; [simpl in Hlt; lia | reflexivity].
Qed.

(** More fuel does not change what a loop that ended has done. *)
Lemma run_loop_more_fuel step fuel : forall a rs out,
  run_loop step fuel a rs = Some out ->
  run_loop step (S fuel) a rs = Some out.
Proof.
  induction fuel as [|fuel IH]; intros a rs out Hrun;
    destruct (loop_cond a) eqn:Hcond.
  - unfold loop_cond in Hcond. simpl in Hrun. rewrite Hcond in Hrun. discriminate.
  - rewrite (run_loop_stop _ _ _ _ Hcond) in Hrun.
    rewrite (run_loop_stop _ _ _ _ Hcond). exact Hrun.
  - destruct (step (entering_step a)) as [a1 [r|e]] eqn:Hstep.
    + rewrite (run_loop_next _ _ _ _ _ _ Hcond Hstep) in Hrun.
      rewrite (run_loop_next _ _ _ _ _ _ Hcond Hstep). apply IH, Hrun.
    + rewrite (run_loop_raise _ _ _ _ _ _ Hcond Hstep) in Hrun.
      rewrite (run_loop_raise _ _ _ _ _ _ Hcond Hstep). exact Hrun.
  - rewrite (run_loop_stop _ _ _ _ Hcond) in Hrun.
    rewrite (run_loop_stop _ _ _ _ Hcond). exact Hrun.
Qed.

End BaseAgentSpec.

(** ** Tool results *)

Module ToolResultSpec.

Import PyObject Tool ToolParts.

Lemma append_empty_r (s : string) : s +:+ "" = s.
Proof.
  induction s as [|c s IH]; [reflexivity|].
  change (String c (s +:+ "") = String c s). f_equal. exact IH.
Qed.

Lemma truthy_false (s : string) : truthy s = false <-> s = "".
Proof.
  unfold truthy. destruct (String.eqb_spec s ""); simpl; split; congruence.
Qed.

Lemma truthy_true (s : string) : truthy s = true <-> s <> "".
Proof.
  unfold truthy. destruct (String.eqb_spec s ""); simpl; split; congruence.
Qed.

Lemma truthy_opt_true (o : option string) :
  truthy_opt o = true <-> exists s, o = Some s /\ s <> "".
Proof.
  destruct o as [s|]; simpl.
  - rewrite truthy_true. split.
    + intros Hs. exists s. auto.
    + intros (s' & [= <-] & Hs). exact Hs.
  - split; [discriminate | intros (s & Hs & _); discriminate].
Qed.

Section WithObjects.

Context {value : Type} `{Object value}.

Lemma truth_embed (o : option string) : truth (embed o) = Ok (truthy_opt o).
Proof. destruct o; [apply truth_str | apply truth_none]. Qed.

Lemma as_text_embed (o : option string) : as_text (embed o) = Some o.
Proof. destruct o; [apply as_text_str | apply as_text_none]. Qed.

(** A concatenated text field never fails, and holds [merged]. *)
Lemma combine_fields_text (l r : option string) :
  combine_fields (embed l) (embed r) true = Ok (embed (merged l r)).
Proof.
  unfold combine_fields. rewrite !truth_embed.
  destruct l as [a|], r as [b|]; simpl; try reflexivity.
  - destruct (truthy a) eqn:Ea, (truthy b) eqn:Eb.
    + apply plus_str.
    + apply truthy_false in Eb. subst b. rewrite append_empty_r. reflexivity.
    + apply truthy_false in Ea. subst a. reflexivity.
    + apply truthy_false in Ea. subst a. reflexivity.
  - destruct (truthy a); reflexivity.
Qed.

(** The image field fails exactly when both sides are truthy. *)
Lemma combine_fields_image (l r : option string) :
  combine_fields (embed l) (embed r) false
  = if truthy_opt l && truthy_opt r
    then Raise (ValueError "Cannot combine tool results")
    else Ok (embed (or_opt l r)).
Proof.
  unfold combine_fields, or_opt. rewrite !truth_embed.
  destruct (truthy_opt l), (truthy_opt r); reflexivity.
Qed.

(** [+] once the outputs are merged. *)
Lemma add_eq (l r : ToolResult value) :
  __add__ l r
  = match combine_fields (output l) (output r) true with
    | Raise e => Raise e
    | Ok o =>
        if truthy_opt (base64_image l) && truthy_opt (base64_image r)
        then Raise (ValueError "Cannot combine tool results")
        else Ok (mkToolResult o (merged (error l) (error r))
                   (or_opt (base64_image l) (base64_image r))
                   (merged (system l) (system r)))
    end.
Proof.
  unfold __add__. rewrite !combine_fields_text, combine_fields_image.
  destruct (combine_fields (output l) (output r) true) as [o|e]; [|reflexivity].
  destruct (truthy_opt (base64_image l) && truthy_opt (base64_image r));
    [reflexivity|].
  unfold construct. rewrite !as_text_embed. reflexivity.
Qed.

(** [__bool__] once the truth value of the output is known. *)
Lemma bool_eq (self : ToolResult value) :
  __bool__ self
  = match truth (output self) with
    | Raise e => Raise e
    | Ok t =>
        Ok (t || (truthy_opt (error self) || (truthy_opt (base64_image self)
                    || truthy_opt (system self))))
    end.
Proof.
  unfold __bool__, fields. simpl. rewrite !truth_embed.
  destruct (truth (output self)) as [[|]|e]; try reflexivity.
  destruct (truthy_opt (error self)); [reflexivity|].
  destruct (truthy_opt (base64_image self)); [reflexivity|].
  destruct (truthy_opt (system self)); reflexivity.
Qed.

(** C8, amended: for every ToolResult value, converting it to a boolean
    raises what the truth value of its output raises, if that raises; if
    not, the truthiness is true if and only if at least one of its fields
    holds a truthy value: an output whose truth value is true, or a
    non-empty text in error, base64_image or system.  A field set to a
    falsy value (the empty text, 0, False, an empty container) counts as
    unset. *)
Theorem bool_characterised (self : ToolResult value) :
  match truth (output self) with
  | Raise e => __bool__ self = Raise e
  | Ok t =>
      exists b, __bool__ self = Ok b
      /\ (b = true
          <-> t = true
              \/ exists s, s <> ""
                   /\ (error self = Some s \/ base64_image self = Some s
                       \/ system self = Some s))
  end.
Proof.
  rewrite bool_eq. destruct (truth (output self)) as [t|e]; [|reflexivity].
  eexists. split; [reflexivity|].
  rewrite !orb_true_iff, !truthy_opt_true. split.
  - intros [Ht | [(s & Hf & Hs) | [(s & Hf & Hs) | (s & Hf & Hs)]]];
      [left; exact Ht | right; exists s; auto ..].
  - intros [Ht | (s & Hs & [Hf | [Hf | Hf]])]; eauto 10.
Qed.

(** C7, amended: for every pair of ToolResult values combined with [+],
    a side counting as present when its value is truthy.  The output is
    merged first: if the truth value of a side that is consulted raises,
    the combination raises the same; if the left output is not present the
    right one is taken as it is; if only the left one is present it is
    taken; if both are present the merged output is left + right as Python
    adds the two objects, and an exception of that sum (a TypeError for two
    dictionaries) fails the combination.  For outputs that are texts or
    None this is the rule of error and system: two texts give the left one
    followed by the right one, a text on the right only is taken, a text on
    the left only is taken unless it is empty, and then the field is None.
    When the output is merged, the combination fails with the value error,
    producing no result, exactly when both sides hold a non-empty
    base64_image; otherwise the merged image is the left one when that is
    non-empty and the right one if not.  (output x + output y gives xy;
    error e + empty gives error e; two non-empty images raise.) *)
Theorem add_characterised (self other : ToolResult value) :
  __add__ self other
  = match combine_fields (output self) (output other) true with
    | Raise e => Raise e
    | Ok o =>
        if truthy_opt (base64_image self) && truthy_opt (base64_image other)
        then Raise (ValueError "Cannot combine tool results")
        else Ok (mkToolResult o (merged (error self) (error other))
                   (or_opt (base64_image self) (base64_image other))
                   (merged (system self) (system other)))
    end
  /\ (forall e, truth (output self) = Raise e ->
      combine_fields (output self) (output other) true = Raise e)
  /\ (truth (output self) = Ok false ->
      combine_fields (output self) (output other) true = Ok (output other))
  /\ (forall e, truth (output self) = Ok true -> truth (output other) = Raise e ->
      combine_fields (output self) (output other) true = Raise e)
  /\ (truth (output self) = Ok true -> truth (output other) = Ok false ->
      combine_fields (output self) (output other) true = Ok (output self))
  /\ (truth (output self) = Ok true -> truth (output other) = Ok true ->
      combine_fields (output self) (output other) true
      = plus (output self) (output other))
  /\ (forall a b, output self = embed a -> output other = embed b ->
      combine_fields (output self) (output other) true = Ok (embed (merged a b)))
  /\ (forall a b, merged (Some a) (Some b) = Some (a +:+ b))
  /\ (forall b, merged None b = b)
  /\ (forall a, a <> "" -> merged (Some a) None = Some a)
  /\ merged (Some "") None = None
  /\ __add__ (with_output (of_str "x")) (with_output (of_str "y"))
     = Ok (with_output (of_str "xy"))
  /\ __add__ (with_error "e") empty = Ok (with_error "e")
  /\ __add__ (with_image "p1") (with_image "p2")
     = Raise (ValueError "Cannot combine tool results").
Proof.
  split; [apply add_eq|].
  unfold combine_fields.
  split; [intros e ->; reflexivity|].
  split; [intros ->; reflexivity|].
  split; [intros e -> ->; reflexivity|].
  split; [intros -> ->; reflexivity|].
  split; [intros -> ->; reflexivity|].
  split; [intros a b -> ->; apply combine_fields_text|].
  split; [reflexivity|].
  split; [reflexivity|].
  split; [intros a Ha; simpl; apply truthy_true in Ha; rewrite Ha; reflexivity|].
  split; [reflexivity|].
  split; [|split].
  - rewrite add_eq. simpl.
    pose proof (combine_fields_text (Some "x") (Some "y")) as Hc. simpl in Hc.
    rewrite Hc. reflexivity.
  - rewrite add_eq. simpl.
    pose proof (combine_fields_text None None) as Hc. simpl in Hc.
    rewrite Hc. reflexivity.
  - rewrite add_eq. simpl.
    pose proof (combine_fields_text None None) as Hc. simpl in Hc.
    rewrite Hc. reflexivity.
Qed.

End WithObjects.

(** C8 as stated fails: a result whose output is set to the empty text, or
    to the number 0, has a field set and is falsy. *)
Lemma bool_counterexample :
  (existsb is_set (fields (with_output (PStr ""))) = true
   /\ __bool__ (with_output (PStr "")) = Ok false)
  /\ (existsb is_set (fields (with_output (PInt 0))) = true
      /\ __bool__ (with_output (PInt 0)) = Ok false).
Proof. repeat split; reflexivity. Qed.

Lemma bool_characterised_witness :
  exists b, __bool__ (mkToolResult (PInt 0) (Some "e") None None) = Ok b
  /\ (b = true
      <-> false = true
          \/ exists s, s <> ""
               /\ (Some "e" = Some s \/ (None : option string) = Some s
                   \/ (None : option string) = Some s)).
Proof.
  exact (bool_characterised (mkToolResult (PInt 0) (Some "e") None None)).
Defined.

(** C7 as stated fails where a side holds a falsy value: two results that
    both have base64_image present combine without error, an error field
    present on the left only is not taken, an output present on the left
    only is not taken, and two outputs that are both present may have no
    concatenation at all. *)
Lemma add_counterexample :
  (is_set (embed (base64_image (with_image (value := pyobj) ""))) = true
   /\ is_set (embed (base64_image (with_image (value := pyobj) "p2"))) = true
   /\ __add__ (with_image "") (with_image "p2") = Ok (with_image (value := pyobj) "p2"))
  /\ (is_set (embed (error (with_error (value := pyobj) ""))) = true
      /\ is_set (embed (error (empty (value := pyobj)))) = false
      /\ __add__ (with_error "") empty = Ok (empty (value := pyobj))
      /\ error (empty (value := pyobj)) <> error (with_error (value := pyobj) ""))
  /\ (is_set (output (with_output (PInt 0))) = true
      /\ is_set (output (empty (value := pyobj))) = false
      /\ __add__ (with_output (PInt 0)) empty = Ok empty
      /\ output (empty (value := pyobj)) <> output (with_output (PInt 0)))
  /\ (is_set (output (with_output (PDict [(PStr "a", PInt 1)]))) = true
      /\ is_set (output (with_output (PDict [(PStr "b", PInt 2)]))) = true
      /\ __add__ (with_output (PDict [(PStr "a", PInt 1)]))
           (with_output (PDict [(PStr "b", PInt 2)]))
         = Raise (TypeError "unsupported operand type(s) for +")).
Proof. repeat split; discriminate. Qed.

Lemma add_characterised_witness :
  __add__ (mkToolResult (PStr "out") None (Some "img") (Some "s1"))
      (mkToolResult (PStr "put") (Some "late") None (Some "s2"))
  = Ok (mkToolResult (PStr "output") (Some "late") (Some "img") (Some "s1s2"))
  /\ combine_fields (PInt 1) (PInt 2) true = Ok (PInt 3).
Proof.
  split.
  - exact (proj1 (add_characterised
                    (mkToolResult (PStr "out") None (Some "img") (Some "s1"))
                    (mkToolResult (PStr "put") (Some "late") None (Some "s2")))).
  - destruct (add_characterised (with_output (PInt 1)) (with_output (PInt 2)))
      as (_ & _ & _ & _ & _ & Hplus & _).
    exact (Hplus eq_refl eq_refl).
Defined.

End ToolResultSpec.

(** ** The schema generator and extraction *)

Module CreateChatCompletionSpec.

Import CreateChatCompletion.

(** C9: schema generation for the primitive integer response type, through
    the constructor and through [_create_type_schema] itself, gives an
    object-typed schema whose properties hold the single entry response, of
    type integer, and whose required list is [response]. *)
Theorem int_schema :
  let schema :=
    JObj [("type", JStr "object");
          ("properties",
           JObj [("response",
                  JObj [("type", JStr "integer");
                        ("description", JStr "Response of type int")])]);
          ("required", JArr [JStr "response"])] in
  __init__ (Some (T_class C_int))
    = Ok (mkTool (Some (T_class C_int)) ["response"], schema)
  /\ (forall build,
        _create_type_schema build (mkTool (Some (T_class C_int)) default_required)
          (Some (T_class C_int)) = Ok schema).
Proof. split; reflexivity. Qed.

(** The dictionary comprehension, key by key. *)
Lemma fields_dict_lookup {value} (text : string -> value)
    (kwargs : gmap string value) (required : list string) (k : string) :
  fields_dict value text kwargs required !! k
  = if decide (k ∈ required) then Some (kwargs_get value text kwargs k) else None.
Proof.
  unfold fields_dict.
  assert (H : forall (d : gmap string value),
             fold_left (fun d field => <[field := kwargs_get value text kwargs field]> d)
               required d !! k
             = if decide (k ∈ required) then Some (kwargs_get value text kwargs k)
               else d !! k).
  { induction required as [|f fs IH]; intros d; simpl fold_left.
    - rewrite decide_False by apply not_elem_of_nil. reflexivity.
    - rewrite IH. destruct (decide (k ∈ fs)) as [Hin|Hnin].
      + rewrite decide_True by (right; exact Hin). reflexivity.
      + destruct (decide (k = f)) as [->|Hne].
        * rewrite decide_True by left. apply lookup_insert_eq.
        * rewrite decide_False.
          -- apply lookup_insert_ne. congruence.
          -- intros Hin. apply elem_of_cons in Hin as [?|?]; contradiction. }
  rewrite H. case_decide; [reflexivity | apply lookup_empty].
Qed.

(** C10: when the required-field list in force (the argument, or the
    tool's own list when the argument is absent or empty) has two or more
    names, [execute] returns the dictionary that maps each of those names to
    its raw value, the empty text standing in for an absent field; no other
    key is in it, and neither the declared response type nor its
    constructors play any part. *)
Theorem execute_many_fields {value} (text : string -> value)
    (construct : type_hint -> value -> result value)
    (construct_model : type_hint -> gmap string value -> result value)
    (self : Tool) (required_arg : option (list string)) (fields : list string)
    (kwargs : gmap string value) :
  (required_arg = Some fields
   \/ ((required_arg = None \/ required_arg = Some []) /\ required self = fields)) ->
  (2 <= length fields)%nat ->
  exists d,
    execute value text construct construct_model self required_arg kwargs
    = Ok (R_dict value d)
    /\ forall k,
         d !! k = if decide (k ∈ fields)
                  then Some (default (text "") (kwargs !! k))
                  else None.
Proof.
  intros Hreq Hlen.
  exists (fields_dict value text kwargs fields). split.
  - unfold execute.
    destruct fields as [|f1 [|f2 fs]]; simpl in Hlen; [lia | lia |].
    destruct Hreq as [-> | [[-> | ->] ->]]; reflexivity.
  - intros k. apply fields_dict_lookup.
Qed.

Lemma execute_many_fields_witness :
  exists d,
    execute string id (fun _ v => Ok v) (fun _ _ => Raise (TypeError "no model"))
      (mkTool (Some (T_class C_int)) ["response"]) (Some ["a"; "b"])
      (<["a" := "1"]> (<["c" := "3"]> ∅))
    = Ok (R_dict string d)
    /\ forall k,
         d !! k = if decide (k ∈ ["a"; "b"])
                  then Some (default (id "") ((<["a" := "1"]> (<["c" := "3"]> ∅) : gmap string string) !! k))
                  else None.
Proof.
  apply (execute_many_fields id (fun _ v => Ok v)
           (fun _ _ => Raise (TypeError "no model"))
           (mkTool (Some (T_class C_int)) ["response"]) (Some ["a"; "b"]) ["a"; "b"]).
  - left. reflexivity.
  - simpl. lia.
Defined.

End CreateChatCompletionSpec.

(** ** Texts *)

Module TextFacts.

Lemma append_assoc (a b c : string) : (a +:+ b) +:+ c = a +:+ (b +:+ c).
Proof.
  induction a as [|ch a IH]; [reflexivity|].
  change (String ch ((a +:+ b) +:+ c) = String ch (a +:+ (b +:+ c))).
  f_equal. exact IH.
Qed.

End TextFacts.

(** ** More on the agent loop *)

Module BaseAgentMore.

Import Samples BaseAgentSpec TextFacts.

(** X1: [run] never changes the state the caller sees: whenever it gives
    control back, by returning or by raising, the state field is what it
    was before the call (so no caller ever observes RUNNING, FINISHED or
    ERROR left behind by a run). *)
Theorem run_keeps_state (step : Agent -> outcome string) (fuel : nat)
    (self : Agent) (request : option string) (self' : Agent) (r : result string) :
  run step fuel self request = Some (self', r) ->
  state self' = state self.
Proof.
  intros Hrun. destruct (AgentState_eqb (state self) IDLE) eqn:E.
  - apply AgentState_eqb_eq in E. rewrite E.
    exact (run_leaves_IDLE step fuel self request self' r E Hrun).
  - unfold run in Hrun. rewrite E in Hrun. simpl in Hrun.
    injection Hrun as <- _. reflexivity.
Qed.

Lemma run_keeps_state_witness :
  state (set_state IDLE (set_current_step 3 (set_state RUNNING (fresh 5))))
  = state (fresh 5).
Proof.
  apply (run_keeps_state third_fails 3 (fresh 5) None
           (set_state IDLE (set_current_step 3 (set_state RUNNING (fresh 5))))
           (Raise boom)).
  reflexivity.
Defined.

(** Iterations that changed anything added a record. *)
Lemma iterates_records step a rs b rs' :
  iterates step a rs b rs' ->
  (b = a /\ rs' = rs) \/ (length rs < length rs')%nat.
Proof.
  induction 1 as [a rs | a rs a1 r b rs' _ _ _ IH]; [left; auto|].
  right. destruct IH as [(_ & ->) | Hlt]; rewrite ?List.length_app in *; simpl in *; lia.
Qed.

(** X2: the termination record depends on the counter alone.  Whenever the
    loop of a run started from IDLE comes to its exit with the step counter
    at or past the budget (whether or not the last step set FINISHED), [run]
    returns the records of the finished iterations followed by the
    termination record, with the counter reset to 0 and the state IDLE. *)
Theorem run_exit_budget_reached (step : Agent -> outcome string) (self : Agent)
    (request : option string) (b : Agent) (rs : list string) :
  state self = IDLE ->
  iterates step (set_state RUNNING (with_request request self)) [] b rs ->
  max_steps b <= current_step b ->
  exists fuel0, forall fuel, (fuel0 <= fuel)%nat ->
    run step fuel self request
    = Some (set_state IDLE (set_current_step 0 b),
            Ok (join newline (rs ++ [terminated_record (max_steps b)])%list)).
Proof.
  intros Hidle Hiter Hge.
  destruct (run_loop_iterates _ _ _ _ _ Hiter) as [n Hn].
  exists n. intros fuel Hfuel.
  replace fuel with (n + (fuel - n))%nat by lia.
  rewrite (run_from_IDLE _ _ _ _ Hidle).
  destruct (with_request_fields request self) as (Hs & _).
  unfold state_context, run_body.
  rewrite Hn, run_loop_budget_spent by exact Hge.
  destruct (current_step b >=? max_steps b) eqn:E; [|lia].
  rewrite Hs, Hidle.
  destruct (rs ++ [terminated_record (max_steps b)])%list eqn:El;
    [destruct rs; discriminate | reflexivity].
Qed.

Lemma run_exit_budget_reached_witness :
  exists fuel0, forall fuel, (fuel0 <= fuel)%nat ->
    run finishing_step fuel (fresh 1) None
    = Some (set_state IDLE
              (set_current_step 0 (set_state FINISHED (set_current_step 1 (set_state RUNNING (fresh 1))))),
            Ok (join newline
                  (["Step 1: done"] ++ [terminated_record 1])%list)).
Proof.
  apply (run_exit_budget_reached finishing_step (fresh 1) None
           (set_state FINISHED (set_current_step 1 (set_state RUNNING (fresh 1))))
           ["Step 1: done"]).
  - reflexivity.
  - eapply iterates_next; [reflexivity | reflexivity | apply iterates_here].
  - simpl. lia.
Defined.

(** X3: an early finish does not reset the counter.  Whenever the loop of a
    run started from IDLE comes to its exit with the state FINISHED and the
    counter still below the budget, [run] returns exactly the records of the
    finished iterations (at least one, and no termination record), the state
    is IDLE again, and the step counter keeps the value it reached: it is
    not set back to 0. *)
Theorem run_exit_finished_early (step : Agent -> outcome string) (self : Agent)
    (request : option string) (b : Agent) (rs : list string) :
  state self = IDLE ->
  iterates step (set_state RUNNING (with_request request self)) [] b rs ->
  state b = FINISHED ->
  current_step b < max_steps b ->
  exists fuel0, forall fuel, (fuel0 <= fuel)%nat ->
    run step fuel self request = Some (set_state IDLE b, Ok (join newline rs))
    /\ rs <> []
    /\ current_step (set_state IDLE b) = current_step b.
Proof.
  intros Hidle Hiter Hfin Hlt.
  assert (Hne : rs <> []).
  { apply iterates_records in Hiter as [(-> & _) | Hl].
    - simpl in Hfin. discriminate.
    - destruct rs; [simpl in Hl; lia | discriminate]. }
  destruct (run_loop_iterates _ _ _ _ _ Hiter) as [n Hn].
  exists n. intros fuel Hfuel.
  replace fuel with (n + (fuel - n))%nat by lia.
  rewrite (run_from_IDLE _ _ _ _ Hidle).
  destruct (with_request_fields request self) as (Hs & _).
  unfold state_context, run_body.
  rewrite Hn, run_loop_stop
    by (unfold loop_cond; rewrite Hfin; apply andb_false_r).
  destruct (current_step b >=? max_steps b) eqn:E; [lia|].
  rewrite Hs, Hidle.
  destruct rs; [contradiction|]. repeat split. exact Hne.
Qed.

Lemma run_exit_finished_early_witness :
  exists fuel0, forall fuel, (fuel0 <= fuel)%nat ->
    run finishing_step fuel (fresh 4) None
    = Some (set_state IDLE (set_state FINISHED (set_current_step 1 (set_state RUNNING (fresh 4)))),
            Ok (join newline ["Step 1: done"]))
    /\ ["Step 1: done"] <> []
    /\ current_step
         (set_state IDLE (set_state FINISHED (set_current_step 1 (set_state RUNNING (fresh 4)))))
       = current_step (set_state FINISHED (set_current_step 1 (set_state RUNNING (fresh 4)))).
Proof.
  apply (run_exit_finished_early finishing_step (fresh 4) None
           (set_state FINISHED (set_current_step 1 (set_state RUNNING (fresh 4))))
           ["Step 1: done"]).
  - reflexivity.
  - eapply iterates_next; [reflexivity | reflexivity | apply iterates_here].
  - reflexivity.
  - simpl. lia.
Defined.

Lemma prefix_append p r x :
  String.prefix p r = true -> String.prefix p (r +:+ x) = true.
Proof.
  revert r. induction p as [|c p IH]; intros r H;
    [destruct (r +:+ x); reflexivity|].
  destruct r as [|d r]; [discriminate|].
  change (String d r +:+ x) with (String d (r +:+ x)).
  simpl in *. destruct (Ascii.ascii_dec c d); [apply IH, H | discriminate].
Qed.

(** Every record the loop adds is a step record. *)
Lemma run_loop_step_records step fuel : forall a rs a' rs',
  List.Forall (fun r => String.prefix "Step " r = true) rs ->
  run_loop step fuel a rs = Some (a', Ok rs') ->
  List.Forall (fun r => String.prefix "Step " r = true) rs'.
Proof.
  induction fuel as [|fuel IH]; intros a rs a' rs' Hall Hrun;
    destruct (loop_cond a) eqn:Hcond.
  - unfold loop_cond in Hcond. simpl in Hrun. rewrite Hcond in Hrun. discriminate.
  - rewrite (run_loop_stop _ _ _ _ Hcond) in Hrun. injection Hrun as <- <-. exact Hall.
  - destruct (step (entering_step a)) as [a1 [r|e]] eqn:Hstep.
    + rewrite (run_loop_next _ _ _ _ _ _ Hcond Hstep) in Hrun.
      apply IH in Hrun; [exact Hrun|].
      apply List.Forall_app. split; [exact Hall|].
      constructor; [|constructor].
      unfold step_record. apply prefix_append. reflexivity.
    + rewrite (run_loop_raise _ _ _ _ _ _ Hcond Hstep) in Hrun. discriminate.
  - rewrite (run_loop_stop _ _ _ _ Hcond) in Hrun. injection Hrun as <- <-. exact Hall.
Qed.

Lemma prefix_join p r (rest : list string) :
  String.prefix p r = true -> String.prefix p (join newline (r :: rest)) = true.
Proof.
  intros H. destruct rest as [|y l]; [exact H|].
  rewrite join_cons. apply prefix_append, H.
Qed.

(** X4: the text [run] returns always opens with a record.  Whatever the
    step function, the agent and the request, a summary that [run] returns
    starts with the words of a step record or of the termination record; in
    particular it is never the fallback text for an empty record list. *)
Theorem run_summary_opens_with_record (step : Agent -> outcome string)
    (fuel : nat) (self : Agent) (request : option string) (self' : Agent)
    (summary : string) :
  run step fuel self request = Some (self', Ok summary) ->
  (String.prefix "Step " summary = true
   \/ String.prefix "Terminated: Reached max steps (" summary = true)
  /\ summary <> "No steps executed".
Proof.
  intros Hrun.
  assert (Hidle : state self = IDLE).
  { destruct (AgentState_eqb (state self) IDLE) eqn:E;
      [apply AgentState_eqb_eq, E|].
    unfold run in Hrun. rewrite E in Hrun. discriminate. }
  assert (Hopen : String.prefix "Step " summary = true
                  \/ String.prefix "Terminated: Reached max steps (" summary = true).
  { rewrite (run_from_IDLE _ _ _ _ Hidle) in Hrun.
    unfold state_context, run_body in Hrun.
    set (w := set_state RUNNING (with_request request self)) in *.
    destruct (run_loop step fuel w []) as [[a' [rs'|e]]|] eqn:Hloop;
      [| destruct (is_Exception e); discriminate | discriminate].
    pose proof (run_loop_step_records step fuel w [] a' rs' (List.Forall_nil _) Hloop)
      as Hall.
    destruct (current_step a' >=? max_steps a') eqn:Hge.
    - injection Hrun as _ <-.
      destruct rs' as [|r rest].
      + right. change (String.prefix "Terminated: Reached max steps ("
                         (terminated_record (max_steps a')) = true).
        unfold terminated_record. apply prefix_append. reflexivity.
      + left. inversion Hall as [|? ? Hr _]; subst.
        change ((r :: rest) ++ [terminated_record (max_steps a')])%list
          with (r :: (rest ++ [terminated_record (max_steps a')]))%list.
        apply (prefix_join "Step " r _ Hr).
    - apply run_loop_results in Hloop as [(-> & -> & Hcond) | Hlt].
      + unfold loop_cond in Hcond. subst w. simpl in Hcond, Hge.
        rewrite andb_true_r in Hcond. lia.
      + injection Hrun as _ <-.
        destruct rs' as [|r rest]; [simpl in Hlt; lia|].
        left. inversion Hall as [|? ? Hr _]; subst.
        apply (prefix_join "Step " r _ Hr). }
  split; [exact Hopen|].
  intros ->. destruct Hopen as [H | H]; discriminate.
Qed.

Lemma run_summary_opens_with_record_witness :
  (String.prefix "Step " ("Step 1: done" +:+ newline +:+ "Terminated: Reached max steps (1)")
   = true
   \/ String.prefix "Terminated: Reached max steps ("
        ("Step 1: done" +:+ newline +:+ "Terminated: Reached max steps (1)") = true)
  /\ "Step 1: done" +:+ newline +:+ "Terminated: Reached max steps (1)"
     <> "No steps executed".
Proof.
  apply (run_summary_opens_with_record finishing_step 1 (fresh 1) None (fresh 1)).
  reflexivity.
Defined.

(** *** [update_memory] *)

Lemma supported_role_cases role :
  supported_role role = true ->
  role = "user" \/ role = "system" \/ role = "assistant" \/ role = "tool".
Proof.
  unfold supported_role. rewrite !orb_true_iff, !String.eqb_eq. tauto.
Qed.

(** X7: [update_memory] rejects exactly the role names outside user,
    system, assistant and tool: for such a name it raises the ValueError
    that quotes the name and leaves the agent, memory included, as it was;
    for the four names it never raises that error. *)
Theorem update_memory_unsupported_role (role content : string)
    (img id : option string) (self : Agent) :
  (supported_role role = false ->
   update_memory role content img id self
   = (self, Raise (ValueError ("Unsupported message role: " +:+ role))))
  /\ (supported_role role = true ->
      forall msg, snd (update_memory role content img id self) <> Raise (ValueError msg)).
Proof.
  split.
  - unfold supported_role, update_memory. intros H.
    apply orb_false_elim in H as [H Htool].
    apply orb_false_elim in H as [H Hassistant].
    apply orb_false_elim in H as [Huser Hsystem].
    rewrite Huser, Hsystem, Hassistant, Htool. reflexivity.
  - intros H msg. apply supported_role_cases in H.
    destruct H as [-> | [-> | [-> | ->]]]; unfold update_memory; simpl;
      try discriminate.
    destruct id; simpl; discriminate.
Qed.

Lemma update_memory_unsupported_role_witness :
  update_memory "robot" "hi" None None (fresh 3)
  = (fresh 3, Raise (ValueError ("Unsupported message role: " +:+ "robot"))).
Proof.
  apply (proj1 (update_memory_unsupported_role "robot" "hi" None None (fresh 3))).
  reflexivity.
Defined.

(** X8: [update_memory] only ever appends.  Whatever its arguments, it
    leaves the prompt, the state, the counter, the budget and the threshold
    alone; when it raises, memory is untouched; when it returns, memory is
    the old log followed by one new message that carries the given content
    and image. *)
Theorem update_memory_appends (role content : string) (img id : option string)
    (self : Agent) :
  let self' := fst (update_memory role content img id self) in
  next_step_prompt self' = next_step_prompt self
  /\ state self' = state self
  /\ current_step self' = current_step self
  /\ max_steps self' = max_steps self
  /\ duplicate_threshold self' = duplicate_threshold self
  /\ match snd (update_memory role content img id self) with
     | Raise _ => memory self' = memory self
     | Ok _ => exists m, memory self' = (memory self ++ [m])%list
                         /\ Schema.content m = content
                         /\ Schema.base64_image m = img
     end.
Proof.
  unfold update_memory.
  destruct (String.eqb role "user");
    [simpl; repeat split; eexists; repeat split|].
  destruct (String.eqb role "system");
    [simpl; repeat split; eexists; repeat split|].
  destruct (String.eqb role "assistant");
    [simpl; repeat split; eexists; repeat split|].
  destruct (String.eqb role "tool"); [|simpl; repeat split].
  destruct id; simpl; repeat split. eexists; repeat split.
Qed.

(** *** [state_context] on its own *)

(** The scoped transition is invisible from outside.  For every target
    state and every body, the body runs on the agent with the target state
    written, and when the scope is left, by return or by exception, the
    state is the one before the scope and every other field is as the body
    left it; the body's value or exception is passed on unchanged. *)
Lemma state_context_scope {A : Type} (new_state : AgentState)
    (body : Agent -> option (outcome A)) (self b : Agent) (r : result A) :
  body (set_state new_state self) = Some (b, r) ->
  state_context new_state body self = Some (set_state (state self) b, r).
Proof.
  intros Hbody. unfold state_context. rewrite Hbody.
  destruct r as [v|e]; [reflexivity|].
  destruct (is_Exception e); reflexivity.
Qed.

Lemma state_context_scope_witness :
  state_context ERROR (fun a => Some (set_current_step 7 a, Raise (A:=unit) boom))
    (set_state FINISHED (fresh 3))
  = Some (set_state (state (set_state FINISHED (fresh 3)))
            (set_current_step 7 (set_state ERROR (set_state FINISHED (fresh 3)))),
          Raise boom).
Proof.
  apply (state_context_scope ERROR
           (fun a => Some (set_current_step 7 a, Raise (A:=unit) boom))
           (set_state FINISHED (fresh 3))).
  reflexivity.
Defined.

(** *** More on stuck detection *)

Lemma is_stuck_same_log a b :
  memory a = memory b -> duplicate_threshold a = duplicate_threshold b ->
  is_stuck a = is_stuck b.
Proof. intros Hm Ht. rewrite !is_stuck_eq, Hm, Ht. reflexivity. Qed.

(** X9: lowering the threshold never unsticks an agent: an agent that is
    stuck stays stuck under every smaller duplicate_threshold. *)
Theorem is_stuck_threshold_antitone (self : Agent) (t : Z) :
  t <= duplicate_threshold self ->
  is_stuck self = true ->
  is_stuck (with_threshold t self) = true.
Proof.
  intros Hle. rewrite !is_stuck_eq. simpl.
  rewrite !andb_true_iff, !Z.leb_le. intros [H1 H2]. split; [exact H1 | lia].
Qed.

Lemma is_stuck_threshold_antitone_witness :
  is_stuck (with_threshold 1 (holding [A_; A_; A_] 2)) = true.
Proof.
  apply (is_stuck_threshold_antitone (holding [A_; A_; A_] 2) 1);
    [simpl; lia | reflexivity].
Defined.

(** X10: with a duplicate_threshold of 0 or less no repetition is needed:
    the agent is stuck exactly when memory holds two or more messages and
    the last one has a non-empty content. *)
Theorem is_stuck_threshold_nonpositive (self : Agent) :
  duplicate_threshold self <= 0 ->
  is_stuck self
  = negb (length (memory self) <? 2)%nat && truthy (last_content (memory self)).
Proof.
  intros Hle. rewrite is_stuck_eq.
  replace (duplicate_threshold self <=? Z.of_nat (prior_duplicates (memory self)))
    with true by (symmetry; apply Z.leb_le; lia).
  apply andb_true_r.
Qed.

Lemma is_stuck_threshold_nonpositive_witness :
  is_stuck (holding [user_message "hi" None; A_] 0)
  = negb (length (memory (holding [user_message "hi" None; A_] 0)) <? 2)%nat
    && truthy (last_content (memory (holding [user_message "hi" None; A_] 0))).
Proof.
  apply (is_stuck_threshold_nonpositive (holding [user_message "hi" None; A_] 0)).
  simpl. lia.
Defined.

Lemma last_content_snoc pre m : last_content (pre ++ [m]) = content m.
Proof. unfold last_content. rewrite last_snoc. reflexivity. Qed.

Lemma prior_duplicates_snoc pre m :
  prior_duplicates (pre ++ [m]) = length (List.filter (repeats (content m)) pre).
Proof. unfold prior_duplicates. rewrite last_content_snoc, removelast_last. reflexivity. Qed.

(** X11: of the last message only the content matters.  Two agents with
    the same threshold whose memories differ only in the last message, and
    there only in role, image or tool-call identifier, are stuck or not
    together: a user or tool message that repeats earlier assistant messages
    counts like an assistant one. *)
Theorem is_stuck_last_content_only (a b : Agent) (pre : list Message) (m1 m2 : Message) :
  memory a = (pre ++ [m1])%list -> memory b = (pre ++ [m2])%list ->
  duplicate_threshold a = duplicate_threshold b ->
  content m1 = content m2 ->
  is_stuck a = is_stuck b.
Proof.
  intros Ha Hb Ht Hc. rewrite !is_stuck_eq, Ha, Hb, Ht.
  rewrite !last_content_snoc, !prior_duplicates_snoc, !List.length_app, Hc. reflexivity.
Qed.

Lemma is_stuck_last_content_only_witness :
  is_stuck (holding [A_; A_; A_] 2)
  = is_stuck (holding [A_; A_; tool_message "A" "call-1" (Some "img")] 2).
Proof.
  apply (is_stuck_last_content_only _ _ [A_; A_] A_
           (tool_message "A" "call-1" (Some "img"))); reflexivity.
Defined.

Lemma filter_none {A} (f : A -> bool) (l : list A) :
  List.Forall (fun x => f x = false) l -> List.filter f l = [].
Proof.
  induction 1 as [|x l Hx _ IH]; simpl; [reflexivity|]. rewrite Hx. exact IH.
Qed.

(** X12: only assistant messages count as repetitions.  With a threshold
    of 1 or more, an agent none of whose earlier messages is an assistant
    message with the last message's content is not stuck, however often
    that content occurs under the other roles. *)
Theorem is_stuck_needs_assistant (self : Agent) (pre : list Message) (m : Message) :
  memory self = (pre ++ [m])%list ->
  1 <= duplicate_threshold self ->
  List.Forall (fun x => role x <> assistant \/ content x <> content m) pre ->
  is_stuck self = false.
Proof.
  intros Hmem Ht Hall. rewrite is_stuck_eq, Hmem, prior_duplicates_snoc.
  rewrite (filter_none (repeats (content m)) pre).
  - change (Z.of_nat (length (@nil Message))) with 0.
    replace (duplicate_threshold self <=? 0) with false
      by (symmetry; apply Z.leb_gt; lia).
    apply andb_false_r.
  - eapply List.Forall_impl; [|exact Hall].
    intros x [Hr | Hc]; unfold repeats.
    + destruct (role x); simpl; try reflexivity. contradiction.
    + destruct (String.eqb_spec (content x) (content m)); [contradiction|].
      apply andb_false_r.
Qed.

Lemma is_stuck_needs_assistant_witness :
  is_stuck (holding [user_message "A" None; user_message "A" None;
                     tool_message "A" "call-1" None; A_] 1) = false.
Proof.
  apply (is_stuck_needs_assistant _
           [user_message "A" None; user_message "A" None; tool_message "A" "call-1" None]
           A_).
  - reflexivity.
  - simpl. lia.
  - repeat (apply List.Forall_cons; [left; discriminate|]). apply List.Forall_nil.
Defined.

(** *** The corrective prompt piles up *)

Lemma append_nil_r (a : string) : a +:+ "" = a.
Proof.
  induction a as [|ch a IH]; [reflexivity|].
  change (String ch (a +:+ "") = String ch a). f_equal. exact IH.
Qed.

(** One more copy at the end is one more copy at the front. *)
Lemma copies_snoc n x rest :
  copies n x +:+ (x +:+ rest) = copies (S n) x +:+ rest.
Proof.
  induction n as [|n IH].
  - change (x +:+ rest = (x +:+ "") +:+ rest). rewrite append_nil_r. reflexivity.
  - change (copies (S n) x) with (x +:+ copies n x).
    rewrite append_assoc, IH.
    change (copies (S (S n)) x) with (x +:+ copies (S n) x).
    rewrite (append_assoc x). reflexivity.
Qed.

Section StuckStub.

Variable step : Agent -> outcome string.
Variable s : string.

(** A stub that returns [s] and touches nothing. *)
Hypothesis pure_stub : forall a, step a = (a, Ok s).

(** Each iteration of a stuck agent puts one more corrective line in front
    of the prompt. *)
Lemma run_loop_stuck fuel : forall a rs,
  state a <> FINISHED ->
  is_stuck a = true ->
  (Z.to_nat (max_steps a - current_step a) <= fuel)%nat ->
  exists a' rs',
    run_loop step fuel a rs = Some (a', Ok rs')
    /\ memory a' = memory a
    /\ max_steps a' = max_steps a
    /\ max_steps a <= current_step a'
    /\ match Z.to_nat (max_steps a - current_step a) with
       | O => next_step_prompt a' = next_step_prompt a
       | S n =>
           next_step_prompt a'
           = Some (copies (S n) (stuck_prompt +:+ newline)
                   +:+ format_opt (next_step_prompt a))
       end.
Proof.
  induction fuel as [|fuel IH]; intros a rs Hs Hstuck Hfuel.
  - exists a, rs. rewrite run_loop_budget_spent by lia.
    replace (Z.to_nat (max_steps a - current_step a)) with O by lia.
    repeat split; lia.
  - destruct (Z_lt_le_dec (current_step a) (max_steps a)) as [Hlt|Hge].
    + rewrite (run_loop_next step fuel a rs (entering_step a) s
                 (loop_cond_true a Hs Hlt) (pure_stub _)).
      assert (Hst : is_stuck (entering_step a) = true).
      { rewrite <- Hstuck. apply is_stuck_same_log; reflexivity. }
      unfold stuck_check. rewrite Hst.
      set (a1 := handle_stuck_state (entering_step a)).
      destruct (IH a1 (rs ++ [step_record (current_step (entering_step a)) s])%list)
        as (a' & rs' & Hrun & Hmem & Hmax & Hcur & Hprompt).
      * exact Hs.
      * rewrite <- Hstuck. apply is_stuck_same_log; reflexivity.
      * subst a1. simpl. lia.
      * exists a', rs'. rewrite Hrun. subst a1. simpl in *.
        repeat split; try assumption.
        replace (Z.to_nat (max_steps a - current_step a))
          with (S (Z.to_nat (max_steps a - (current_step a + 1)))) by lia.
        destruct (Z.to_nat (max_steps a - (current_step a + 1))) as [|n];
          rewrite Hprompt; f_equal.
        exact (copies_snoc (S n) (stuck_prompt +:+ newline)
                 (format_opt (next_step_prompt a))).
    + exists a, rs. rewrite run_loop_budget_spent by lia.
      replace (Z.to_nat (max_steps a - current_step a)) with O by lia.
      repeat split; lia.
Qed.

End StuckStub.

(** X6: the corrective prompt is prepended once per stuck step and never
    deduplicated.  For an IDLE agent that is stuck once the request is in
    memory, with N >= 1 steps left in its budget and a step that returns a
    text and touches nothing, [run] returns (given fuel for N iterations)
    and leaves as next_step_prompt N copies of the corrective line, each
    ended by a newline, followed by the prompt it had before (the text None
    when it had none); memory is what it was after the request. *)
Theorem run_stuck_prompt_grows (step : Agent -> outcome string) (s : string)
    (fuel : nat) (self : Agent) (request : option string) (n : nat) :
  (forall a, step a = (a, Ok s)) ->
  state self = IDLE ->
  is_stuck (with_request request self) = true ->
  Z.to_nat (max_steps self - current_step self) = S n ->
  (S n <= fuel)%nat ->
  exists self' summary,
    run step fuel self request = Some (self', Ok summary)
    /\ next_step_prompt self'
       = Some (copies (S n) (stuck_prompt +:+ newline)
               +:+ format_opt (next_step_prompt self))
    /\ memory self' = memory (with_request request self).
Proof.
  intros Hstep Hidle Hstuck Hn Hfuel.
  rewrite (run_from_IDLE _ _ _ _ Hidle).
  destruct (with_request_fields request self) as (Hs & Hc & Hm & Hp & Ht).
  set (w := with_request request self) in *.
  unfold state_context, run_body.
  destruct (run_loop_stuck step s Hstep fuel (set_state RUNNING w) [])
    as (a' & rs' & Hrun & Hmem & Hmax & Hcur & Hprompt).
  - simpl. discriminate.
  - rewrite <- Hstuck. apply is_stuck_same_log; reflexivity.
  - simpl. rewrite Hc, Hm, Hn. exact Hfuel.
  - rewrite Hrun. simpl in Hmem, Hmax, Hcur, Hprompt.
    rewrite Hc, Hm, Hn, Hp in Hprompt.
    destruct (current_step a' >=? max_steps a') eqn:E; [|lia].
    eexists. eexists. split; [reflexivity|].
    simpl. split; [exact Hprompt | exact Hmem].
Qed.

Lemma run_stuck_prompt_grows_witness :
  exists self' summary,
    run stub_step 3 (set_next_step_prompt (Some "Think.") (set_max_steps_3 (holding [A_; A_; A_] 2)))
      None = Some (self', Ok summary)
    /\ next_step_prompt self'
       = Some (copies 3 (stuck_prompt +:+ newline) +:+ format_opt (Some "Think."))
    /\ memory self' = [A_; A_; A_].
Proof.
  apply (run_stuck_prompt_grows stub_step "ok" 3
           (set_next_step_prompt (Some "Think.") (set_max_steps_3 (holding [A_; A_; A_] 2)))
           None 2).
  - intros a. reflexivity.
  - reflexivity.
  - reflexivity.
  - reflexivity.
  - lia.
Defined.

(** *** The whole summary of a stub run *)

Lemma stub_records_length s from n : length (stub_records s from n) = n.
Proof. revert from. induction n as [|n IH]; intros from; simpl; [|rewrite IH]; reflexivity. Qed.

Lemma stub_records_nth s n : forall from k,
  (k < n)%nat ->
  nth k (stub_records s from n) "" = step_record (from + 1 + Z.of_nat k) s.
Proof.
  induction n as [|n IH]; intros from k Hk; [lia|].
  destruct k as [|k]; simpl stub_records; simpl nth.
  - f_equal. lia.
  - rewrite IH by lia. f_equal. lia.
Qed.

(** X5: a stub run records every step, numbered on from the counter.  For
    an IDLE agent and a stub step that returns the text [s], keeps the
    counter and the budget and does not set FINISHED, [run] returns (given
    fuel for the remaining iterations) the records joined by newlines: one
    record per remaining step, the k-th numbered current_step + k, and then
    the termination record. *)
Theorem run_stub_records (step : Agent -> outcome string) (s : string)
    (fuel : nat) (self : Agent) (request : option string) :
  (forall a, exists a',
      step a = (a', Ok s)
      /\ current_step a' = current_step a
      /\ max_steps a' = max_steps a
      /\ (state a <> FINISHED -> state a' <> FINISHED)) ->
  state self = IDLE ->
  (Z.to_nat (max_steps self - current_step self) <= fuel)%nat ->
  exists self' records,
    run step fuel self request
    = Some (self',
            Ok (join newline (records ++ [terminated_record (max_steps self)])%list))
    /\ length records = Z.to_nat (max_steps self - current_step self)
    /\ forall k, (k < length records)%nat ->
         nth k records "" = step_record (current_step self + 1 + Z.of_nat k) s.
Proof.
  intros Hstub Hidle Hfuel.
  destruct (run_stub_summary step s Hstub fuel self request Hidle Hfuel)
    as (self' & Hrun & _).
  exists self'.
  exists (stub_records s (current_step self)
            (Z.to_nat (max_steps self - current_step self))).
  split; [exact Hrun|]. split; [apply stub_records_length|].
  intros k Hk. rewrite stub_records_length in Hk. apply stub_records_nth, Hk.
Qed.

Lemma run_stub_records_witness :
  exists self' records,
    run stub_step 2 (fresh 2) None
    = Some (self', Ok (join newline (records ++ [terminated_record (max_steps (fresh 2))])%list))
    /\ length records = Z.to_nat (max_steps (fresh 2) - current_step (fresh 2))
    /\ forall k, (k < length records)%nat ->
         nth k records "" = step_record (current_step (fresh 2) + 1 + Z.of_nat k) "ok".
Proof.
  apply (run_stub_records stub_step "ok" 2 (fresh 2) None).
  - intros a. exists a. unfold stub_step. repeat split. auto.
  - reflexivity.
  - simpl. lia.
Defined.

End BaseAgentMore.

(** ** More on tool results *)

Module ToolResultMore.

Import PyObject Tool ToolParts ToolMore ToolResultSpec TextFacts.

Lemma truthy_append a b : truthy (a +:+ b) = truthy a || truthy b.
Proof.
  destruct a as [|ch a]; [destruct b; reflexivity | reflexivity].
Qed.

Lemma merged_assoc a b c : merged (merged a b) c = merged a (merged b c).
Proof.
  destruct a as [x|], b as [y|], c as [z|]; simpl; try reflexivity.
  - rewrite append_assoc. reflexivity.
  - rewrite truthy_append.
    destruct (truthy y) eqn:Ey; simpl.
    + rewrite orb_true_r. reflexivity.
    + apply truthy_false in Ey. subst y. rewrite orb_false_r, append_empty_r.
      reflexivity.
  - destruct (truthy x) eqn:Ex; simpl; [reflexivity|].
    apply truthy_false in Ex. subst x. reflexivity.
  - destruct (truthy x) eqn:Ex; simpl; [rewrite Ex|]; reflexivity.
Qed.

Lemma truthy_merged a b : truthy_opt (merged a b) = truthy_opt a || truthy_opt b.
Proof.
  destruct a as [x|], b as [y|]; simpl; try reflexivity.
  - apply truthy_append.
  - destruct (truthy x) eqn:Ex; simpl; [exact Ex | reflexivity].
Qed.

Lemma truthy_or_opt a b : truthy_opt (or_opt a b) = truthy_opt a || truthy_opt b.
Proof. unfold or_opt. destruct (truthy_opt a) eqn:E; [exact E | reflexivity]. Qed.

Lemma or_opt_assoc a b c : or_opt (or_opt a b) c = or_opt a (or_opt b c).
Proof.
  unfold or_opt. destruct (truthy_opt a) eqn:Ea; [rewrite Ea|]; reflexivity.
Qed.



Section WithObjects.

Context {value : Type} `{Object value}.

(** [+] on two results whose outputs are texts or None. *)
Lemma add_text (o1 e1 i1 s1 o2 e2 i2 s2 : option string) :
  __add__ (mkToolResult (embed o1) e1 i1 s1) (mkToolResult (embed o2) e2 i2 s2)
  = if truthy_opt i1 && truthy_opt i2
    then Raise (ValueError "Cannot combine tool results")
    else Ok (mkToolResult (embed (merged o1 o2)) (merged e1 e2) (or_opt i1 i2)
               (merged s1 s2)).
Proof. rewrite add_eq. simpl. rewrite combine_fields_text. reflexivity. Qed.

(** X13: on results whose outputs are texts or None, [+] is associative,
    failures included: summing three such results from the left or from the
    right raises in the same cases (two or more of them hold a non-empty
    image) and gives the same result in all others. *)
Theorem add_associative (a b c : ToolResult value) (oa ob oc : option string) :
  output a = embed oa -> output b = embed ob -> output c = embed oc ->
  add_left a b c = add_right a b c.
Proof.
  destruct a as [va ea ia sa], b as [vb eb ib sb], c as [vc ec ic sc]. simpl.
  intros -> -> ->. unfold add_left, add_right. rewrite !add_text.
  destruct (truthy_opt ia) eqn:Ea, (truthy_opt ib) eqn:Eb, (truthy_opt ic) eqn:Ec;
    simpl; rewrite ?add_text; simpl;
    rewrite ?truthy_or_opt, ?Ea, ?Eb, ?Ec; simpl;
    rewrite ?merged_assoc, ?or_opt_assoc; reflexivity.
Qed.


(** X15: where the merged output is one of the two outputs or the
    concatenation of two texts, a sum is truthy exactly when one of its
    operands is.  Whenever [a + b] exists, both operands have a truth
    value, and the two outputs are not both truthy or are both texts, the
    truthiness of the sum is that of [a] or that of [b].  (Two truthy
    numbers may add up to 0.) *)
Theorem bool_of_sum (a b c : ToolResult value) (ba bb : bool) :
  __add__ a b = Ok c ->
  __bool__ a = Ok ba ->
  __bool__ b = Ok bb ->
  (truth (output a) = Ok false \/ truth (output b) = Ok false
   \/ exists x y, output a = of_str x /\ output b = of_str y) ->
  __bool__ c = Ok (ba || bb).
Proof.
  rewrite add_eq, !bool_eq.
  destruct (truth (output a)) as [ta|ea] eqn:Eta; [|discriminate].
  destruct (truth (output b)) as [tb|eb] eqn:Etb; [|discriminate].
  intros Hadd [= <-] [= <-] Hout.
  assert (Hc : exists o, combine_fields (output a) (output b) true = Ok o
                         /\ truth o = Ok (ta || tb)).
  { unfold combine_fields. rewrite Eta, Etb.
    destruct ta, tb; simpl; eauto.
    destruct Hout as [[=] | [[=] | (x & y & Hx & Hy)]].
    rewrite Hx, Hy, plus_str. eexists. split; [reflexivity|].
    rewrite truth_str, truthy_append.
    rewrite Hx, truth_str in Eta. injection Eta as ->. reflexivity. }
  destruct Hc as (o & Hco & Hto). rewrite Hco in Hadd.
  destruct (truthy_opt (base64_image a) && truthy_opt (base64_image b));
    [discriminate|].
  injection Hadd as <-. simpl. rewrite Hto, !truthy_merged, truthy_or_opt.
  f_equal.
  destruct ta, tb, (truthy_opt (error a)), (truthy_opt (error b)),
           (truthy_opt (base64_image a)), (truthy_opt (base64_image b)),
           (truthy_opt (system a)), (truthy_opt (system b)); reflexivity.
Qed.

(** X16: an error on either side makes the sum an error.  Whenever [a + b]
    exists, its output is the merge of the two outputs; if [a] or [b] has a
    non-empty error, the sum renders as the error line with the left error
    text followed by the right one; if neither has, it renders as its
    output when that is a text (the merged text, for two outputs that are
    texts or None) and [str] raises a TypeError when it is not. *)
Theorem str_of_sum (a b c : ToolResult value) :
  __add__ a b = Ok c ->
  combine_fields (output a) (output b) true = Ok (output c)
  /\ __str__ c
     = (if truthy_opt (error a) || truthy_opt (error b)
        then Ok ("Error: " +:+ default "" (error a) +:+ default "" (error b))
        else match as_str (output c) with
             | Some o => Ok o
             | None => Raise (TypeError "__str__ returned non-string")
             end)
  /\ (forall x y, output a = embed x -> output b = embed y ->
      as_str (output c) = merged x y).
Proof.
  rewrite add_eq.
  destruct (combine_fields (output a) (output b) true) as [o|e] eqn:Eo;
    [|discriminate].
  destruct (truthy_opt (base64_image a) && truthy_opt (base64_image b));
    [discriminate|].
  intros [= <-]. simpl. split; [reflexivity|]. split.
  - unfold __str__. simpl.
    destruct (error a) as [x|], (error b) as [y|]; simpl.
    + rewrite truthy_append. destruct (truthy x || truthy y); reflexivity.
    + destruct (truthy x) eqn:Ex; simpl; [rewrite Ex, append_empty_r|]; reflexivity.
    + destruct (truthy y); reflexivity.
    + reflexivity.
  - intros x y Hx Hy. rewrite Hx, Hy, combine_fields_text in Eo.
    injection Eo as <-.
    destruct (merged x y); [apply as_str_str | apply as_str_none].
Qed.

(** *** [replace] *)






End WithObjects.

Lemma add_associative_witness :
  add_left (with_output (PStr "a")) (with_error "b") (with_output (PStr "c"))
  = add_right (with_output (PStr "a")) (with_error "b") (with_output (PStr "c")).
Proof.
  apply (add_associative (with_output (PStr "a")) (with_error "b")
           (with_output (PStr "c")) (Some "a") None (Some "c"));
    reflexivity.
Defined.


Lemma bool_of_sum_witness :
  __bool__ (with_error (value := pyobj) "e") = Ok (false || true).
Proof.
  apply (bool_of_sum (with_output (PInt 0)) (with_error "e") (with_error "e")
           false true).
  - reflexivity.
  - reflexivity.
  - reflexivity.
  - left. reflexivity.
Defined.

Lemma str_of_sum_witness :
  __str__ (mkToolResult (PStr "partial") (Some "boom") None None)
  = Ok ("Error: " +:+ default "" None +:+ default "" (Some "boom")).
Proof.
  refine (proj1 (proj2 (str_of_sum (with_output (PStr "partial")) (with_error "boom")
                          (mkToolResult (PStr "partial") (Some "boom") None None)
                          _))).
  reflexivity.
Defined.



End ToolResultMore.

(** ** More on the schema generator and extraction *)

Module CreateChatCompletionMore.

Import CreateChatCompletion.

(** X19: every schema the generator returns has the same outer shape: an
    object schema with the three keys type, properties and required, in
    that order.  Unless the response type is a BaseModel subclass, the
    properties hold the single entry response and the required list is the
    tool's own. *)
Theorem build_parameters_shape (depth : nat) (self : Tool) (j : json) :
  _build_parameters depth self = Ok j ->
  exists props req,
    j = JObj [("type", JStr "object"); ("properties", props); ("required", req)]
    /\ ((forall n s, response_type self <> Some (T_model n s)) ->
        (exists r, props = JObj [("response", JObj r)]) /\ req = required_json self).
Proof.
  revert j. induction depth as [|depth IH]; intros j; [discriminate|].
  simpl. destruct (response_type self) as [[c | | n s | o args nm]|] eqn:Ert.
  - destruct c; intros [= <-]; eexists; eexists; (split; [reflexivity|]);
      intros _; (split; [eexists; reflexivity | reflexivity]).
  - intros [= <-]. eexists; eexists. split; [reflexivity|].
    intros _. split; [eexists; reflexivity | reflexivity].
  - destruct (get "properties" s) as [props|]; [|discriminate].
    intros [= <-]. eexists; eexists. split; [reflexivity|].
    intros Hno. exfalso. exact (Hno n s eq_refl).
  - destruct o.
    + intros [= <-]. eexists; eexists. split; [reflexivity|].
      intros _. split; [eexists; reflexivity | reflexivity].
    + intros [= <-]. eexists; eexists. split; [reflexivity|].
      intros _. split; [eexists; reflexivity | reflexivity].
    + intros [= <-]. eexists; eexists. split; [reflexivity|].
      intros _. split; [eexists; reflexivity | reflexivity].
    + intros H. apply IH in H. destruct H as (props & req & -> & H).
      exists props, req. split; [reflexivity|].
      intros _. apply H. discriminate.
  - discriminate.
Qed.

Lemma build_parameters_shape_witness :
  exists props req,
    JObj [("type", JStr "object");
          ("properties",
           JObj [("response",
                  JObj [("type", JStr "array");
                        ("items", JObj [("type", JStr "number");
                                        ("description", JStr "Value of type float")])])]);
          ("required", JArr [JStr "response"])]
    = JObj [("type", JStr "object"); ("properties", props); ("required", req)]
    /\ ((forall n s,
           response_type (mkTool (Some (T_alias O_list [T_class C_float] (Some "List")))
                            default_required) <> Some (T_model n s)) ->
        (exists r, props = JObj [("response", JObj r)])
        /\ req = required_json (mkTool (Some (T_alias O_list [T_class C_float] (Some "List")))
                                  default_required)).
Proof.
  apply (build_parameters_shape 5
           (mkTool (Some (T_alias O_list [T_class C_float] (Some "List"))) default_required)).
  reflexivity.
Defined.

(** X20: a parameterised type whose origin is none of list, dict and Union
    (a tuple, a set, ...) never gets a schema: [_create_type_schema] hands
    it back to [_build_parameters], which calls [_create_type_schema] again,
    and the construction of the tool ends in a RecursionError whatever the
    recursion limit. *)
Theorem other_origin_never_builds (depth : nat) (args : list type_hint)
    (name : option string) (required : list string) :
  _build_parameters depth (mkTool (Some (T_alias O_other args name)) required)
    = Raise RecursionError
  /\ __init__ (Some (T_alias O_other args name)) = Raise RecursionError.
Proof.
  assert (H : forall d req,
             _build_parameters d (mkTool (Some (T_alias O_other args name)) req)
             = Raise RecursionError).
  { induction d as [|d IH]; intros req; [reflexivity|]. simpl. apply IH. }
  split; [apply H|]. unfold __init__. rewrite H. reflexivity.
Qed.

Section Extraction.

Context {value : Type}.
Variable text : string -> value.
Variable construct : type_hint -> value -> result value.
Variable construct_model : type_hint -> gmap string value -> result value.

(** X21: a conversion that fails with a ValueError or a TypeError is
    absorbed, and the raw value is what [execute] then returns.  When the
    response type [t] is not str, not a BaseModel subclass and not a list or
    dict alias, and the required list in force holds the single name [f]
    (the name is response when the list in force is empty), [execute] calls
    [t] on the raw value of [f] (the empty text when [f] is absent) and
    returns what [t] returns; if [t] raises a ValueError or a TypeError it
    returns the raw value itself; any other exception of [t] reaches the
    caller.  So [execute] then never raises a ValueError or a TypeError. *)
Theorem execute_absorbs_conversion_errors (self : Tool) (t : type_hint)
    (required_arg : option (list string)) (f : string) (kwargs : gmap string value) :
  response_type self = Some t ->
  t <> T_class C_str ->
  (forall n s, t <> T_model n s) ->
  (forall args nm, t <> T_alias O_list args nm) ->
  (forall args nm, t <> T_alias O_dict args nm) ->
  (required_arg = Some [f]
   \/ ((required_arg = None \/ required_arg = Some [])
       /\ (required self = [f] \/ (required self = [] /\ f = "response")))) ->
  execute value text construct construct_model self required_arg kwargs
  = match construct t (kwargs_get value text kwargs f) with
    | Ok v => Ok (R_value value v)
    | Raise (ValueError _) | Raise (TypeError _) =>
        Ok (R_value value (kwargs_get value text kwargs f))
    | Raise e => Raise e
    end
  /\ forall e,
       execute value text construct construct_model self required_arg kwargs = Raise e ->
       construct t (kwargs_get value text kwargs f) = Raise e
       /\ (forall msg, e <> ValueError msg)
       /\ (forall msg, e <> TypeError msg).
Proof.
  intros Hrt Hstr Hmodel Hlist Hdict Hreq.
  assert (Hconv : forall v,
             convert value construct construct_model self kwargs v
             = match construct t v with
               | Ok v' => Ok (R_value value v')
               | Raise (ValueError _) | Raise (TypeError _) => Ok (R_value value v)
               | Raise e => Raise e
               end).
  { intros v. unfold convert. rewrite Hrt.
    destruct t as [c | | n s | o args nm].
    - destruct c; [contradiction | reflexivity ..].
    - reflexivity.
    - exfalso. exact (Hmodel n s eq_refl).
    - destruct o;
        [exfalso; exact (Hlist args nm eq_refl) | exfalso; exact (Hdict args nm eq_refl)
        | reflexivity ..]. }
  assert (Hex : execute value text construct construct_model self required_arg kwargs
                = convert value construct construct_model self kwargs
                    (kwargs_get value text kwargs f)).
  { unfold execute.
    destruct Hreq as [-> | [[-> | ->] [-> | [-> ->]]]]; reflexivity. }
  rewrite Hex, Hconv. split; [reflexivity|].
  intros e.
  destruct (construct t (kwargs_get value text kwargs f)) as [v'|e'];
    [discriminate|].
  destruct e'; try discriminate; intros [= <-]; repeat split; discriminate.
Qed.

(** X22: for a BaseModel response type the required field is not
    consulted.  When the required list in force has at most one name, the
    value [execute] returns is the model built from all the keyword
    arguments, and an exception of that construction, a ValueError
    included, reaches the caller. *)
Theorem execute_model_from_kwargs (self : Tool) (n : string)
    (s : list (string * json)) (required_arg : option (list string))
    (fields : list string) (kwargs : gmap string value) :
  response_type self = Some (T_model n s) ->
  ((required_arg = Some fields /\ fields <> [])
   \/ ((required_arg = None \/ required_arg = Some []) /\ required self = fields)) ->
  (length fields <= 1)%nat ->
  execute value text construct construct_model self required_arg kwargs
  = match construct_model (T_model n s) kwargs with
    | Ok v => Ok (R_value value v)
    | Raise e => Raise e
    end.
Proof.
  intros Hrt Hreq Hlen. unfold execute.
  assert (Hconv : forall v,
             convert value construct construct_model self kwargs v
             = match construct_model (T_model n s) kwargs with
               | Ok v => Ok (R_value value v)
               | Raise e => Raise e
               end).
  { intros v. unfold convert. rewrite Hrt. reflexivity. }
  destruct fields as [|f [|f2 fs]]; [| |simpl in Hlen; lia].
  - destruct Hreq as [[_ Hne] | [[-> | ->] ->]]; [contradiction | apply Hconv ..].
  - destruct Hreq as [[-> _] | [[-> | ->] ->]]; apply Hconv.
Qed.

(** X23: text, list and dict responses come back as received.  When the
    response type is str or a list or dict alias and the required list in
    force is the single name [f], [execute] returns the raw value of [f],
    or the empty text when [f] is absent, whatever the constructors would
    do. *)
Theorem execute_raw_value (self : Tool) (required_arg : option (list string))
    (f : string) (kwargs : gmap string value) :
  (response_type self = Some (T_class C_str)
   \/ (exists args nm, response_type self = Some (T_alias O_list args nm))
   \/ (exists args nm, response_type self = Some (T_alias O_dict args nm))) ->
  (required_arg = Some [f]
   \/ ((required_arg = None \/ required_arg = Some []) /\ required self = [f])) ->
  execute value text construct construct_model self required_arg kwargs
  = Ok (R_value value (default (text "") (kwargs !! f))).
Proof.
  intros Hrt Hreq. unfold execute.
  assert (Hconv : forall v,
             convert value construct construct_model self kwargs v = Ok (R_value value v)).
  { intros v. unfold convert.
    destruct Hrt as [-> | [(args & nm & ->) | (args & nm & ->)]]; reflexivity. }
  destruct Hreq as [-> | [[-> | ->] ->]]; apply Hconv.
Qed.

End Extraction.

Lemma execute_absorbs_conversion_errors_witness :
  execute string id
    (fun _ v => if String.eqb v "42" then Ok v else Raise (ValueError "invalid literal for int()"))
    (fun _ _ => Raise (TypeError "no model"))
    (mkTool (Some (T_class C_int)) ["response"]) None (<["response" := "forty-two"]> ∅)
  = Ok (R_value string "forty-two").
Proof.
  apply (proj1 (execute_absorbs_conversion_errors id
           (fun _ v => if String.eqb v "42" then Ok v
                       else Raise (ValueError "invalid literal for int()"))
           (fun _ _ => Raise (TypeError "no model"))
           (mkTool (Some (T_class C_int)) ["response"]) (T_class C_int) None "response"
           (<["response" := "forty-two"]> ∅)
           eq_refl ltac:(discriminate) ltac:(discriminate) ltac:(discriminate)
           ltac:(discriminate)
           (or_intror (conj (or_introl eq_refl) (or_introl eq_refl))))).
Defined.

Lemma execute_model_from_kwargs_witness :
  execute string id (fun _ v => Ok v) (fun _ _ => Raise (ValueError "validation error"))
    (mkTool (Some (T_model "User" [])) ["name"]) None (<["name" := "Ann"]> ∅)
  = match (fun (_ : type_hint) (_ : gmap string string) =>
             Raise (A:=string) (ValueError "validation error"))
          (T_model "User" []) (<["name" := "Ann"]> ∅) with
    | Ok v => Ok (R_value string v)
    | Raise e => Raise e
    end.
Proof.
  apply (execute_model_from_kwargs id (fun _ v => Ok v)
           (fun _ _ => Raise (ValueError "validation error"))
           (mkTool (Some (T_model "User" [])) ["name"]) "User" [] None ["name"]).
  - reflexivity.
  - right. split; [left|]; reflexivity.
  - simpl. lia.
Defined.

Lemma execute_raw_value_witness :
  execute string id (fun _ _ => Raise (ValueError "unused"))
    (fun _ _ => Raise (ValueError "unused"))
    (mkTool (Some (T_class C_str)) ["response"]) (Some ["answer"]) ∅
  = Ok (R_value string (default (id "") ((∅ : gmap string string) !! "answer"))).
Proof.
  apply (execute_raw_value id (fun _ _ => Raise (ValueError "unused"))
           (fun _ _ => Raise (ValueError "unused"))
           (mkTool (Some (T_class C_str)) ["response"]) (Some ["answer"]) "answer").
  - left. reflexivity.
  - left. reflexivity.
Defined.

End CreateChatCompletionMore.

(** ** The Manus agent's thinking step *)

Module ManusMore.

Import PyObject Tool Manus.

Section Browser.

Context {value : Type}.
Variable truthy_value : value -> bool.
Variable format_value : value -> string.
Context {object : Type} `{Object object}.
Variable browser_tool : result (option (result (ToolResult object))).
Variable loads : object -> result (browser_state value).
Variable parent_think : ManusAgent -> ManusAgent * result bool.

Lemma get_browser_state_agent (self : ManusAgent) :
  agent (fst (get_browser_state value browser_tool loads self)) = agent self.
Proof.
  unfold get_browser_state.
  destruct browser_tool as [[[res|e]|]|e];
    [| destruct (is_Exception e); reflexivity | reflexivity | reflexivity].
  destruct (truthy_opt (error res)); [reflexivity|].
  destruct (truthy_opt (base64_image res));
    (destruct (loads (output res)) as [st|e];
       [reflexivity | destruct (is_Exception e); reflexivity]).
Qed.

(** X24: [get_browser_state] shields its caller from what happens inside
    its [try], and from nothing else.  An exception raised by the lookup of
    the browser tool, which stands before the [try], reaches the caller as
    it is.  Without the tool the answer is None.  When the tool's call
    raises, and when the tool reports no error but parsing its output
    raises, the answer is None if the exception derives from Exception, and
    the exception reaches the caller if it does not.  So an exception that
    leaves [get_browser_state] is the lookup's own or does not derive from
    Exception.  In every case the fields of the agent proper are untouched,
    and before the parse nothing at all is written. *)
Theorem get_browser_state_shields (self : ManusAgent) :
  agent (fst (get_browser_state value browser_tool loads self)) = agent self
  /\ (forall e, browser_tool = Raise e ->
      get_browser_state value browser_tool loads self = (self, Raise e))
  /\ (browser_tool = Ok None ->
      get_browser_state value browser_tool loads self = (self, Ok None))
  /\ (forall e, browser_tool = Ok (Some (Raise e)) ->
      get_browser_state value browser_tool loads self
      = (self, if is_Exception e then Ok None else Raise e))
  /\ (forall res e, browser_tool = Ok (Some (Ok res)) ->
      truthy_opt (error res) = false ->
      loads (output res) = Raise e ->
      snd (get_browser_state value browser_tool loads self)
      = if is_Exception e then Ok None else Raise e)
  /\ (forall e,
      snd (get_browser_state value browser_tool loads self) = Raise e ->
      browser_tool = Raise e \/ is_Exception e = false).
Proof.
  split; [apply get_browser_state_agent|].
  unfold get_browser_state.
  split; [intros e ->; reflexivity|].
  split; [intros ->; reflexivity|].
  split; [intros e ->; destruct (is_Exception e); reflexivity|].
  split.
  - intros res e -> -> Hl.
    destruct (truthy_opt (base64_image res)); rewrite Hl;
      destruct (is_Exception e); reflexivity.
  - intros e.
    destruct browser_tool as [[[res|e']|]|e']; [| | discriminate |].
    + destruct (truthy_opt (error res)); [discriminate|].
      destruct (loads (output res)) as [st|e'']; [discriminate|].
      destruct (is_Exception e'') eqn:E; [discriminate|].
      simpl. intros [= <-]. right. exact E.
    + destruct (is_Exception e') eqn:E; [discriminate|].
      simpl. intros [= <-]. right. exact E.
    + simpl. intros [= <-]. left. reflexivity.
Qed.

(** X25: the screenshot is stored before the state is parsed, and only for
    a result without error.  When the tool's result carries a non-empty
    error, the answer is None and nothing is stored, image or not; when it
    carries no error and a non-empty image, the image is stored even if
    parsing the output then fails and the answer is None. *)
Theorem get_browser_state_screenshot (self : ManusAgent) (res : ToolResult object) :
  browser_tool = Ok (Some (Ok res)) ->
  (truthy_opt (error res) = true ->
   get_browser_state value browser_tool loads self = (self, Ok None))
  /\ (truthy_opt (error res) = false ->
      truthy_opt (base64_image res) = true ->
      forall e, loads (output res) = Raise e -> is_Exception e = true ->
      get_browser_state value browser_tool loads self
      = (set_current_base64_image (base64_image res) self, Ok None)).
Proof.
  intros Htool. unfold get_browser_state. rewrite Htool. split.
  - intros ->. reflexivity.
  - intros -> -> e -> ->. reflexivity.
Qed.

Lemma think_with_restores (browser : option (browser_state value))
    (self self' : ManusAgent) (r : bool) :
  think_with value truthy_value format_value parent_think browser self = (self', Ok r) ->
  next_step_prompt (agent self') = next_step_prompt (agent self).
Proof.
  unfold think_with.
  set (finish := fun s : ManusAgent =>
         match parent_think s with
         | (s', Raise e) => (s', Raise e)
         | (s', Ok result_) =>
             (set_agent (set_next_step_prompt (next_step_prompt (agent self)) (agent s')) s',
              Ok result_)
         end).
  assert (Hfin : forall s, finish s = (self', Ok r) ->
                 next_step_prompt (agent self') = next_step_prompt (agent self)).
  { intros s. unfold finish. destruct (parent_think s) as [s' [v|e]]; [|discriminate].
    intros [= <- _]. reflexivity. }
  destruct browser as [[d|[|]]|]; try apply Hfin; try discriminate.
  destruct (decide (d = ∅)); [apply Hfin|].
  destruct (match d !! "error" with Some v => truthy_value v | None => false end);
    [apply Hfin|].
  destruct (next_step_prompt (agent self)); [apply Hfin | discriminate].
Qed.

(** X26: a thinking step that returns leaves the prompt as it found it.
    Whatever the browser reports and whatever the parent's [think] does to
    next_step_prompt, when [think] returns the prompt is the one the agent
    had before the call: the browser state is only lent to the parent. *)
Theorem think_restores_prompt (self self' : ManusAgent) (r : bool) :
  think value truthy_value format_value browser_tool loads parent_think self
  = (self', Ok r) ->
  next_step_prompt (agent self') = next_step_prompt (agent self).
Proof.
  unfold think. pose proof (get_browser_state_agent self) as Hag.
  destruct (get_browser_state value browser_tool loads self) as [s1 [browser|e]];
    [|discriminate].
  simpl in Hag. intros Hth. apply think_with_restores in Hth. congruence.
Qed.

Lemma append_grows (p t : string) : t <> "" -> p +:+ t <> p.
Proof.
  intros Ht. induction p as [|c p IH]; [exact Ht|].
  change (String c (p +:+ t) <> String c p). intros [= Heq]. exact (IH Heq).
Qed.

(** X27: a thinking step that fails does not take the browser text back.
    When the browser state is a non-empty dictionary without a truthy error
    entry, the prompt is a text [p], and the parent's [think] raises on the
    agent whose prompt is [p] followed by the browser text, [think] raises
    the same exception and hands back the agent as the parent left it; if
    the parent did not touch the prompt, the agent keeps the longer prompt,
    which differs from [p]. *)
Theorem think_failure_keeps_browser_text (self s1 b : ManusAgent)
    (d : gmap string value) (p : string) (e : exn) :
  get_browser_state value browser_tool loads self = (s1, Ok (Some (BS_dict value d))) ->
  d <> ∅ ->
  match d !! "error" with Some v => truthy_value v | None => false end = false ->
  next_step_prompt (agent s1) = Some p ->
  parent_think
    (set_agent (set_next_step_prompt (Some (p +:+ browser_text value format_value d))
                  (agent s1)) s1)
  = (b, Raise e) ->
  think value truthy_value format_value browser_tool loads parent_think self
  = (b, Raise e)
  /\ (next_step_prompt (agent b)
      = Some (p +:+ browser_text value format_value d) ->
      next_step_prompt (agent b) <> next_step_prompt (agent self)).
Proof.
  intros Hget Hne Herr Hp Hparent. split.
  - unfold think. rewrite Hget. unfold think_with.
    destruct (decide (d = ∅)); [contradiction|].
    rewrite Herr, Hp, Hparent. reflexivity.
  - intros Hb. pose proof (get_browser_state_agent self) as Hag.
    rewrite Hget in Hag. simpl in Hag. rewrite Hb, <- Hag, Hp.
    intros [= Heq]. revert Heq. apply append_grows. discriminate.
Qed.

End Browser.

Lemma get_browser_state_screenshot_witness :
  get_browser_state string
    (Ok (Some (Ok (mkToolResult (PStr "{oops") None (Some "png") None))))
    (fun _ => Raise (ValueError "Expecting property name"))
    (mkManus (Samples.fresh 3) None)
  = (set_current_base64_image (Some "png") (mkManus (Samples.fresh 3) None), Ok None).
Proof.
  apply (proj2 (get_browser_state_screenshot
                  (Ok (Some (Ok (mkToolResult (PStr "{oops") None (Some "png") None))))
                  (fun _ => Raise (ValueError "Expecting property name"))
                  (mkManus (Samples.fresh 3) None)
                  (mkToolResult (PStr "{oops") None (Some "png") None) eq_refl)
           eq_refl eq_refl (ValueError "Expecting property name") eq_refl eq_refl).
Defined.

Lemma think_restores_prompt_witness :
  next_step_prompt
    (agent (set_agent (set_next_step_prompt (Some "Next?") (Samples.fresh 3))
              (mkManus (set_next_step_prompt (Some "changed") (Samples.fresh 3)) None)))
  = next_step_prompt (agent (mkManus (set_next_step_prompt (Some "Next?") (Samples.fresh 3)) None)).
Proof.
  apply (think_restores_prompt (fun s : string => negb (String.eqb s "")) id
           (object := pyobj) (Ok None)
           (fun _ => Ok (BS_other string false))
           (fun m => (set_agent (set_next_step_prompt (Some "changed") (agent m)) m, Ok true))
           (mkManus (set_next_step_prompt (Some "Next?") (Samples.fresh 3)) None)
           _ true).
  reflexivity.
Defined.

Lemma think_failure_keeps_browser_text_witness :
  think string (fun s : string => negb (String.eqb s "")) id
    (Ok (Some (Ok (mkToolResult (PStr "{...}") None None None))))
    (fun _ => Ok (BS_dict string (<["url" := "http://example.org"]> ∅)))
    (fun m => (m, Raise Samples.boom))
    (mkManus (set_next_step_prompt (Some "Next?") (Samples.fresh 3)) None)
  = (set_agent
       (set_next_step_prompt
          (Some ("Next?" +:+ browser_text string id (<["url" := "http://example.org"]> ∅)))
          (set_next_step_prompt (Some "Next?") (Samples.fresh 3)))
       (mkManus (set_next_step_prompt (Some "Next?") (Samples.fresh 3)) None),
     Raise Samples.boom).
Proof.
  refine (proj1 (think_failure_keeps_browser_text
                   (fun s : string => negb (String.eqb s "")) id
                   (Ok (Some (Ok (mkToolResult (PStr "{...}") None None None))))
                   (fun _ => Ok (BS_dict string (<["url" := "http://example.org"]> ∅)))
                   (fun m => (m, Raise Samples.boom))
                   (mkManus (set_next_step_prompt (Some "Next?") (Samples.fresh 3)) None)
                   (mkManus (set_next_step_prompt (Some "Next?") (Samples.fresh 3)) None)
                   _ (<["url" := "http://example.org"]> ∅) "Next?" Samples.boom
                   eq_refl _ eq_refl eq_refl eq_refl)).
  apply insert_non_empty.
Defined.

Lemma get_browser_state_shields_witness :
  get_browser_state string
    (Ok (Some (Raise (ValueError "browser not initialised"))))
    (fun _ : pyobj => Ok (BS_other string false))
    (mkManus (Samples.fresh 3) None)
  = (mkManus (Samples.fresh 3) None, Ok None)
  /\ snd (get_browser_state string
            (Ok (Some (Ok (mkToolResult (PStr "{oops") None None None))))
            (fun _ : pyobj => Raise (ValueError "Expecting property name"))
            (mkManus (Samples.fresh 3) None))
     = Ok None.
Proof.
  split.
  - apply (proj1 (proj2 (proj2 (proj2 (get_browser_state_shields
             (Ok (Some (Raise (ValueError "browser not initialised"))))
             (fun _ : pyobj => Ok (BS_other string false))
             (mkManus (Samples.fresh 3) None)))))
           (ValueError "browser not initialised") eq_refl).
  - apply (proj1 (proj2 (proj2 (proj2 (proj2 (get_browser_state_shields
             (Ok (Some (Ok (mkToolResult (PStr "{oops") None None None))))
             (fun _ : pyobj => Raise (ValueError "Expecting property name"))
             (mkManus (Samples.fresh 3) None))))))
           (mkToolResult (PStr "{oops") None None None)
           (ValueError "Expecting property name") eq_refl eq_refl eq_refl).
Defined.

End ManusMore.

(** ** The bracket checker *)

Module OdMore.

Import Od.

Local Open Scope char_scope.

Lemma map_of_pair o c : pair o c -> _map c = Some o /\ _map o = None.
Proof. destruct 1; split; reflexivity. Qed.

Lemma pair_of_map o c : _map c = Some o -> pair o c.
Proof.
  unfold _map.
  destruct (Ascii.eqb_spec c ")") as [->|_]; [intros [= <-]; constructor|].
  destruct (Ascii.eqb_spec c "}") as [->|_]; [intros [= <-]; constructor|].
  destruct (Ascii.eqb_spec c "]") as [->|_]; [intros [= <-]; constructor|].
  discriminate.
Qed.

(** Reading a balanced stretch leaves the stack as it was. *)
Lemma scan_balanced w : balanced w -> forall st rest, scan (w ++ rest) st = scan rest st.
Proof.
  intros Hb. induction Hb as [|o c w Hp Hw IH|w1 w2 Hb1 IH1 Hb2 IH2]; intros st rest.
  - reflexivity.
  - destruct (map_of_pair o c Hp) as [Hc Ho].
    change ((o :: w ++ [c]) ++ rest)%list with (o :: ((w ++ [c]) ++ rest))%list.
    simpl scan. rewrite Ho, <- List.app_assoc, IH.
    simpl app. simpl scan. rewrite Hc.
    rewrite List.length_app, List.last_last, List.removelast_last.
    rewrite Ascii.eqb_refl.
    replace (length st + length [o] =? 0)%nat with false
      by (symmetry; apply Nat.eqb_neq; simpl; lia).
    reflexivity.
  - rewrite <- List.app_assoc, IH1, IH2. reflexivity.
Qed.

Lemma closes_prepend b st rest : balanced b -> closes st rest -> closes st (b ++ rest).
Proof.
  intros Hb Hc. destruct Hc as [s Hs | st o w c rest Hw Hp Hc].
  - constructor. apply balanced_app; assumption.
  - rewrite List.app_assoc. constructor; [apply balanced_app| |]; assumption.
Qed.

(** A text the loop accepts closes the stack it started from. *)
Lemma scan_closes s : forall st, scan s st = true -> closes st s.
Proof.
  induction s as [|ch s IH]; intros st H; simpl in H.
  - apply Nat.eqb_eq in H. destruct st; [|discriminate].
    constructor. constructor.
  - destruct (_map ch) as [o|] eqn:Hm.
    + destruct st as [|x st0] using rev_ind; [discriminate|].
      rewrite List.length_app, List.last_last, List.removelast_last in H.
      replace (length st0 + length [x] =? 0)%nat with false in H
        by (symmetry; apply Nat.eqb_neq; simpl; lia).
      simpl in H. destruct (Ascii.eqb_spec x o) as [->|_]; [|discriminate].
      simpl in H. apply IH in H.
      apply (closes_next st0 o [] ch s); [constructor | apply pair_of_map, Hm | exact H].
    + apply IH in H. inversion H as [s0 Hs Est | st0 o w c rest Hw Hp Hc Est Es].
      * destruct st; discriminate.
      * apply List.app_inj_tail in Est as [-> ->].
        change (ch :: w ++ c :: rest)%list with ((ch :: w) ++ [c] ++ rest)%list.
        rewrite List.app_assoc.
        apply closes_prepend; [|exact Hc].
        change ((ch :: w) ++ [c])%list with (ch :: w ++ [c])%list.
        constructor; assumption.
Qed.

Lemma balanced_sound s : balanced s -> is_valid_str s = true.
Proof.
  intros H. unfold is_valid_str.
  rewrite <- (List.app_nil_r s), (scan_balanced s H). reflexivity.
Qed.

Lemma balanced_complete s : is_valid_str s = true -> balanced s.
Proof.
  intros H. apply scan_closes in H.
  inversion H as [s0 Hs Est | st o w c rest Hw Hp Hc Est Es]; [exact Hs|].
  destruct st; discriminate.
Qed.

(** X28: [is_valid_str] decides correct nesting: it returns True exactly
    on the strings built from the empty string by putting a valid string
    between the two brackets of a pair, round, curly or square, and by
    writing two valid strings side by side. *)
Theorem is_valid_str_iff_balanced (s : list ascii) :
  is_valid_str s = true <-> balanced s.
Proof. split; [apply balanced_complete | apply balanced_sound]. Qed.

Lemma balanced_brackets s : balanced s -> List.Forall (fun ch => is_bracket ch = true) s.
Proof.
  intros Hb. induction Hb as [|o c w Hp Hw IH|w1 w2 Hb1 IH1 Hb2 IH2].
  - constructor.
  - constructor; [destruct Hp; reflexivity|].
    apply List.Forall_app. split; [exact IH|].
    constructor; [destruct Hp; reflexivity | constructor].
  - apply List.Forall_app. split; assumption.
Qed.

Lemma balanced_even s : balanced s -> Nat.Even (length s).
Proof.
  intros Hb. induction Hb as [|o c w Hp Hw [k IH]|w1 w2 Hb1 [k1 IH1] Hb2 [k2 IH2]].
  - exists O. reflexivity.
  - exists (S k). simpl. rewrite List.length_app. simpl. lia.
  - exists (k1 + k2)%nat. rewrite List.length_app. lia.
Qed.

(** X29: what [is_valid_str] rejects at sight: a string that holds any
    character other than the six brackets (a letter, a digit, a space), and
    a string of odd length, are never valid. *)
Theorem is_valid_str_rejects (s : list ascii) :
  (forall ch, List.In ch s -> is_bracket ch = false -> is_valid_str s = false)
  /\ (Nat.Odd (length s) -> is_valid_str s = false).
Proof.
  split.
  - intros ch Hin Hch. destruct (is_valid_str s) eqn:E; [|reflexivity].
    apply balanced_complete, balanced_brackets in E.
    rewrite List.Forall_forall in E. rewrite (E ch Hin) in Hch. discriminate.
  - intros Hodd. destruct (is_valid_str s) eqn:E; [|reflexivity].
    apply balanced_complete, balanced_even in E.
    exfalso. apply (Nat.Even_Odd_False _ E Hodd).
Qed.

Lemma is_valid_str_rejects_witness :
  is_valid_str ["("; "a"; ")"] = false.
Proof.
  apply (proj1 (is_valid_str_rejects ["("; "a"; ")"]) "a").
  - right. left. reflexivity.
  - reflexivity.
Defined.

Lemma is_valid_str_iff_balanced_witness :
  is_valid_str ["("; "["; "]"; ")"; "{"; "}"] = true.
Proof.
  apply (proj2 (is_valid_str_iff_balanced ["("; "["; "]"; ")"; "{"; "}"])).
  apply (balanced_app ["("; "["; "]"; ")"] ["{"; "}"]).
  - apply (balanced_wrap "(" ")" ["["; "]"]); [constructor|].
    apply (balanced_wrap "[" "]" []); constructor.
  - apply (balanced_wrap "{" "}" []); constructor.
Defined.

End OdMore.

(** ** The longest palindrome *)

Module OdPalindromeMore.

Import OdPalindrome.

Local Open Scope nat_scope.

Lemma slice_length s i len : i + len <= length s -> length (slice s i len) = len.
Proof. intros H. unfold slice. rewrite List.length_firstn, List.length_skipn. lia. Qed.

Lemma slice_cons s i len :
  i + S len <= length s -> slice s i (S len) = char_at s i :: slice s (S i) len.
Proof.
  revert i. induction s as [|a s IH]; intros i H; [simpl in H; lia|].
  destruct i as [|i].
  - reflexivity.
  - unfold slice, char_at in *. simpl skipn. simpl nth. apply IH. simpl in H. lia.
Qed.

Lemma slice_snoc s i len :
  i + S len <= length s -> slice s i (S len) = (slice s i len ++ [char_at s (i + len)])%list.
Proof.
  revert i. induction len as [|len IH]; intros i H.
  - rewrite slice_cons by lia. unfold slice at 1 2. simpl. rewrite Nat.add_0_r. reflexivity.
  - rewrite slice_cons by lia. rewrite IH by lia.
    rewrite (slice_cons s i len) by lia.
    replace (S i + len) with (i + S len) by lia. reflexivity.
Qed.

(** A slice of two or more characters: its ends and its inside. *)
Lemma slice_ends s i len :
  i + len + 2 <= length s ->
  slice s i (len + 2)
  = char_at s i :: (slice s (i + 1) len ++ [char_at s (i + len + 1)])%list.
Proof.
  intros H. replace (len + 2) with (S (S len)) by lia.
  rewrite slice_cons by lia. f_equal.
  rewrite slice_snoc by lia.
  replace (S i) with (i + 1) by lia.
  replace (i + 1 + len) with (i + len + 1) by lia. reflexivity.
Qed.

Lemma palindrome_ends a b (m : list ascii) :
  palindrome (a :: m ++ [b]) <-> a = b /\ palindrome m.
Proof.
  unfold palindrome. simpl. rewrite List.rev_app_distr. simpl. split.
  - intros H. injection H as Hab H. subst b.
    apply List.app_inj_tail in H as [H _]. auto.
  - intros [-> ->]. reflexivity.
Qed.

Lemma dp_set_square n dp i j v : square n dp -> j < n -> square n (dp_set dp i j v).
Proof.
  intros [Hl Hrows] Hj. unfold dp_set. split.
  - rewrite length_insert. exact Hl.
  - destruct (decide (i < length dp)) as [Hi|Hi].
    + apply Forall_insert; [exact Hrows|].
      rewrite length_insert.
      rewrite List.Forall_forall in Hrows. apply Hrows, List.nth_In. exact Hi.
    + rewrite list_insert_ge by lia. exact Hrows.
Qed.

Lemma dp_get_set n dp i j v i' j' :
  square n dp -> i < n -> j < n ->
  dp_get (dp_set dp i j v) i' j'
  = if decide (i' = i /\ j' = j) then v else dp_get dp i' j'.
Proof.
  intros [Hl Hrows] Hi Hj. unfold dp_get, dp_set.
  assert (Hrow : length (nth i dp []) = n).
  { rewrite List.Forall_forall in Hrows. apply Hrows, List.nth_In. lia. }
  destruct (decide (i' = i)) as [->|Hne].
  - rewrite (nth_lookup _ i), list_lookup_insert_eq by lia. simpl.
    destruct (decide (j' = j)) as [->|Hnj].
    + rewrite nth_lookup, list_lookup_insert_eq by lia.
      rewrite decide_True by auto. reflexivity.
    + rewrite nth_lookup, list_lookup_insert_ne by auto.
      rewrite decide_False by tauto. rewrite <- nth_lookup. reflexivity.
  - rewrite (nth_lookup _ i'), list_lookup_insert_ne by auto.
    rewrite decide_False by tauto. rewrite <- nth_lookup. reflexivity.
Qed.

Lemma palindrome_short (w : list ascii) : length w <= 1 -> palindrome w.
Proof. destruct w as [|a [|b w]]; simpl; intros H; [reflexivity | reflexivity | lia]. Qed.

Section Loops.

Variable s : list ascii.

(** The value the inner loop writes in cell (i, j) is whether [s[i..j]] is
    a palindrome. *)
Lemma visit_eq l i σ :
  2 <= l -> i + l <= length s -> InvIn s l i σ ->
  visit s i (l + i - 1) σ
  = let v := bool_decide (palindrome (slice s i l)) in
    let dp' := dp_set (dp σ) i (l + i - 1) v in
    let printed' := (printed σ ++ [(i, l + i - 1)])%list in
    if v && (max_len σ <? l)
    then mkP dp' l i printed'
    else mkP dp' (max_len σ) (begin σ) printed'.
Proof.
  intros Hl Hi [(Hsq & Hcells & _) _].
  unfold visit.
  replace (l + i - 1 - i + 1) with l by lia.
  replace (l + i - 1 - i) with (l - 1) by lia.
  assert (Hends : slice s i l
                  = char_at s i
                    :: (slice s (i + 1) (l - 2) ++ [char_at s (l + i - 1)])%list).
  { replace l with ((l - 2) + 2) at 1 by lia. rewrite slice_ends by lia.
    replace (i + (l - 2) + 1) with (l + i - 1) by lia. reflexivity. }
  assert (Hv : (if negb (Ascii.eqb (char_at s i) (char_at s (l + i - 1)))
                then dp_set (dp σ) i (l + i - 1) false
                else if l - 1 <? 3
                     then dp_set (dp σ) i (l + i - 1) true
                     else dp_set (dp σ) i (l + i - 1)
                            (dp_get (dp σ) (i + 1) (l + i - 1 - 1)))
               = dp_set (dp σ) i (l + i - 1) (bool_decide (palindrome (slice s i l)))).
  { rewrite Hends.
    destruct (Ascii.eqb_spec (char_at s i) (char_at s (l + i - 1))) as [Heq|Hne]; simpl.
    - destruct (l - 1 <? 3) eqn:E.
      + apply Nat.ltb_lt in E. rewrite bool_decide_eq_true_2; [reflexivity|].
        apply palindrome_ends. split; [exact Heq|].
        apply palindrome_short. rewrite slice_length by lia. lia.
      + apply Nat.ltb_ge in E.
        replace (l + i - 1 - 1) with (i + 1 + (l - 2) - 1) by lia.
        rewrite Hcells by lia. f_equal.
        apply bool_decide_ext. rewrite palindrome_ends. tauto.
    - rewrite bool_decide_eq_false_2; [reflexivity|].
      rewrite palindrome_ends. tauto. }
  rewrite Hv. cbv zeta.
  rewrite (dp_get_set (length s)) by (try exact Hsq; lia).
  rewrite decide_True by auto. reflexivity.
Qed.

Lemma visit_inv l i σ :
  2 <= l -> i + l <= length s -> InvIn s l i σ ->
  InvIn s l (S i) (visit s i (l + i - 1) σ).
Proof.
  intros Hl Hi HI. rewrite (visit_eq l i σ Hl Hi HI). cbv zeta.
  destruct HI as [(Hsq & Hcells & Hmax1 & Hbeg & Hpal & Hbest) [Hrow Hrowbest]].
  set (v := bool_decide (palindrome (slice s i l))).
  assert (Hsq' : square (length s) (dp_set (dp σ) i (l + i - 1) v)).
  { apply dp_set_square; [exact Hsq | lia]. }
  assert (Hcells' : forall i' len, 1 <= len -> len < l -> i' + len <= length s ->
            dp_get (dp_set (dp σ) i (l + i - 1) v) i' (i' + len - 1)
            = bool_decide (palindrome (slice s i' len))).
  { intros i' len H1 H2 H3.
    rewrite (dp_get_set (length s)) by (try exact Hsq; lia).
    rewrite decide_False by lia. apply Hcells; assumption. }
  assert (Hrow' : forall i', i' < S i -> i' + l <= length s ->
            dp_get (dp_set (dp σ) i (l + i - 1) v) i' (i' + l - 1)
            = bool_decide (palindrome (slice s i' l))).
  { intros i' H1 H2.
    rewrite (dp_get_set (length s)) by (try exact Hsq; lia).
    destruct (decide (i' = i)) as [->|Hne].
    - rewrite decide_True by (split; lia). reflexivity.
    - rewrite decide_False by lia. apply Hrow; lia. }
  destruct (v && (max_len σ <? l)) eqn:E.
  - apply andb_true_iff in E as [Ev Elt].
    apply Nat.ltb_lt in Elt. apply bool_decide_eq_true in Ev.
    refine (conj (conj Hsq' (conj Hcells' (conj _ (conj _ (conj _ _)))))
                 (conj Hrow' _)); simpl.
    + lia.
    + lia.
    + exact Ev.
    + intros i' len H1 H2 _. lia.
    + intros i' H1 H2 _. lia.
  - assert (Hcase : ~ palindrome (slice s i l) \/ l <= max_len σ).
    { apply andb_false_iff in E as [Ev|Elt].
      - left. apply bool_decide_eq_false in Ev. exact Ev.
      - right. apply Nat.ltb_ge in Elt. exact Elt. }
    refine (conj (conj Hsq' (conj Hcells' (conj _ (conj _ (conj _ _)))))
                 (conj Hrow' _)); simpl.
    + exact Hmax1.
    + exact Hbeg.
    + exact Hpal.
    + exact Hbest.
    + intros i' H1 H2 H3.
      destruct (decide (i' = i)) as [->|Hne].
      * destruct Hcase as [Hn|Hle]; [contradiction | exact Hle].
      * apply (Hrowbest i'); [lia | assumption ..].
Qed.

(** One pass of the inner loop settles the substrings of length [l]. *)
Lemma inner_inv l : 2 <= l -> forall k i0 σ,
  i0 + k = length s -> InvIn s l i0 σ ->
  Inv s (S l) (inner s (length s) l (seq i0 k) σ).
Proof.
  intros Hl.
  assert (Hdone : forall i0 σ, length s < i0 + l -> InvIn s l i0 σ -> Inv s (S l) σ).
  { intros i0 σ Hi0 [(Hsq & Hcells & Hmax1 & Hbeg & Hpal & Hbest) [Hrow Hrowbest]].
    refine (conj Hsq (conj _ (conj Hmax1 (conj Hbeg (conj Hpal _))))).
    - intros i len H1 H2 H3.
      destruct (decide (len = l)) as [->|Hne]; [apply Hrow; lia | apply Hcells; lia].
    - intros i len H2 H3 H4.
      destruct (decide (len = l)) as [->|Hne]; [apply (Hrowbest i); [lia|assumption..]|].
      apply (Hbest i); [lia | assumption ..]. }
  induction k as [|k IH]; intros i0 σ Hk HI; simpl.
  - apply (Hdone i0); [lia | exact HI].
  - destruct (length s <=? l + i0 - 1) eqn:E.
    + apply Nat.leb_le in E. apply (Hdone i0); [lia | exact HI].
    + apply Nat.leb_gt in E. apply IH; [lia|].
      apply visit_inv; [exact Hl | lia | exact HI].
Qed.

Lemma Inv_InvIn l σ : Inv s l σ -> InvIn s l 0 σ.
Proof. intros H. split; [exact H|]. split; intros; lia. Qed.

(** The outer loop settles every length up to the last one. *)
Lemma outer_inv k : forall l σ,
  2 <= l -> Inv s l σ ->
  Inv s (l + k)
    (fold_left (fun σ l => inner s (length s) l (seq 0 (length s)) σ) (seq l k) σ).
Proof.
  induction k as [|k IH]; intros l σ Hl HI; simpl.
  - rewrite Nat.add_0_r. exact HI.
  - replace (l + S k) with (S l + k) by lia. apply IH; [lia|].
    apply (inner_inv l Hl (length s) 0 σ); [lia | apply Inv_InvIn, HI].
Qed.

(** The table as the loops find it: the diagonal is set. *)
Lemma diagonal_inv k : forall dp0,
  k <= length s -> square (length s) dp0 ->
  let dp1 := fold_left (fun dp i => dp_set dp i i true) (seq 0 k) dp0 in
  square (length s) dp1 /\ forall i, i < k -> dp_get dp1 i i = true.
Proof.
  induction k as [|k IH]; intros dp0 Hk Hsq; cbv zeta.
  - split; [exact Hsq | intros; lia].
  - rewrite seq_S, fold_left_app. simpl.
    destruct (IH dp0 ltac:(lia) Hsq) as [Hsq1 Hdiag]. cbv zeta in Hsq1, Hdiag.
    split; [apply dp_set_square; [exact Hsq1 | lia]|].
    intros i Hi. rewrite (dp_get_set (length s)) by (try exact Hsq1; lia).
    destruct (decide (i = k)) as [->|Hne].
    + rewrite decide_True by auto. reflexivity.
    + rewrite decide_False by lia. apply Hdiag. lia.
Qed.

Lemma square_repeat n : square n (repeat (repeat false n) n).
Proof.
  split; [apply repeat_length|].
  apply List.Forall_forall. intros row Hin.
  apply repeat_spec in Hin. subst row. apply repeat_length.
Qed.

End Loops.

Lemma slice_of_parts (pre w post : list ascii) :
  slice (pre ++ w ++ post) (length pre) (length w) = w.
Proof.
  unfold slice. rewrite drop_app_length, take_app_length. reflexivity.
Qed.

Lemma slice_is_part s i len :
  s = (firstn i s ++ slice s i len ++ skipn len (skipn i s))%list.
Proof.
  unfold slice. rewrite List.firstn_skipn, List.firstn_skipn. reflexivity.
Qed.

(** X30: [longestPalinfrome] returns a longest palindromic substring: what
    it returns is a contiguous part of the string, reads the same in both
    directions, and is at least as long as every contiguous part of the
    string that does. *)
Theorem longestPalinfrome_longest (s : list ascii) :
  let r := fst (longestPalinfrome s) in
  (exists pre post, s = (pre ++ r ++ post)%list)
  /\ rev r = r
  /\ forall pre w post, s = (pre ++ w ++ post)%list -> rev w = w -> length w <= length r.
Proof.
  unfold longestPalinfrome.
  destruct (length s <? 2) eqn:En; cbv zeta; simpl fst.
  - apply Nat.ltb_lt in En. split; [|split].
    + exists [], []. simpl. rewrite List.app_nil_r. reflexivity.
    + apply (palindrome_short s). lia.
    + intros pre w post -> _. rewrite !List.length_app. lia.
  - apply Nat.ltb_ge in En.
    destruct (diagonal_inv s (length s) (repeat (repeat false (length s)) (length s))
                (Nat.le_refl _) (square_repeat _)) as [Hsq Hdiag].
    cbv zeta in Hsq, Hdiag.
    set (dp0 := fold_left (fun dp i => dp_set dp i i true) (seq 0 (length s))
                  (repeat (repeat false (length s)) (length s))) in *.
    assert (H0 : Inv s 2 (mkP dp0 1 0 [])).
    { refine (conj Hsq (conj _ (conj _ (conj _ (conj _ _))))); simpl.
      - intros i len H1 H2 H3. replace len with 1 by lia.
        replace (i + 1 - 1) with i by lia. rewrite Hdiag by lia.
        symmetry. apply bool_decide_eq_true_2, palindrome_short.
        rewrite slice_length by lia. lia.
      - lia.
      - lia.
      - apply palindrome_short. rewrite slice_length by lia. lia.
      - intros i len H1 _ _. lia. }
    pose proof (outer_inv s (length s - 1) 2 _ (Nat.le_refl 2) H0) as HI.
    set (σ := fold_left _ _ _) in *.
    destruct HI as (_ & _ & Hmax1 & Hbeg & Hpal & Hbest).
    split; [|split].
    + eexists. eexists. apply slice_is_part.
    + exact Hpal.
    + intros pre w post Hs Hw. rewrite slice_length by exact Hbeg.
      apply (Hbest (length pre)).
      * rewrite Hs, !List.length_app. lia.
      * rewrite Hs, !List.length_app. lia.
      * rewrite Hs at 1. rewrite slice_of_parts. exact Hw.
Qed.

Lemma longestPalinfrome_longest_witness :
  length ["a"; "b"; "a"]%char
  <= length (fst (longestPalinfrome ["c"; "a"; "b"; "a"; "d"]%char)).
Proof.
  destruct (longestPalinfrome_longest ["c"; "a"; "b"; "a"; "d"]%char) as (_ & _ & H).
  apply (H ["c"%char] ["a"; "b"; "a"]%char ["d"%char]); reflexivity.
Defined.

End OdPalindromeMore.
